(** * scripts/setup-supabase.py: migration runner and table verifier

    A shallow embedding of the set-up script.  The script is one
    straight-line routine that reads its configuration, probes the
    database, applies every [*.sql] file of a fixed directory in sorted
    order, checks three tables and prints a summary.  It is embedded as a
    computation in a small state, output and exception monad:

    - the state holds the external database (an abstract world reached
      through the calls of the [psycopg2] interface) and the two lists
      the script mutates, [failed_migrations] and [missing_tables];
    - the output is the sequence of observable events, the printed lines
      and the calls made to the database and to the file system;
    - exceptions are Python's: [psycopg2.Error], any other [Exception],
      and the [SystemExit] raised by [sys.exit]. *)

From Stdlib Require Import ZArith Ascii DecimalString.
From stdpp Require Import gmap strings list sorting.

Local Open Scope Z_scope.

(** ** Strings *)

Definition nl : string := String (Ascii.ascii_of_nat 10) "".
Definition ESC : string := String (Ascii.ascii_of_nat 27) "".

(** [str(n)] for a length. *)
Definition str_of_nat (n : nat) : string :=
  NilEmpty.string_of_uint (Nat.to_uint n).

(** [sep.join(l)]. *)
Definition join (sep : string) (l : list string) : string :=
  String.concat sep l.

(** [s.split(c)] for a separator of one character: the pieces between
    the occurrences of [c]; never the empty list. *)
Fixpoint split_char (c : Ascii.ascii) (s : string) : list string :=
  match s with
  | EmptyString => [EmptyString]
  | String a s' =>
      if decide (a = c) then EmptyString :: split_char c s'
      else match split_char c s' with
           | piece :: rest => String a piece :: rest
           | [] => [String a EmptyString]
           end
  end.

(** [name] matches the pattern [*.sql]: it ends in [.sql]. *)
Fixpoint has_suffix (suffix name : string) : bool :=
  if decide (name = suffix) then true
  else match name with
       | EmptyString => false
       | String _ name' => has_suffix suffix name'
       end.

(** The first label of a dotted name: what stands before its first dot. *)
Fixpoint first_label (name : string) : string :=
  match name with
  | EmptyString => EmptyString
  | String a name' =>
      if decide (a = "."%char) then EmptyString
      else String a (first_label name')
  end.

(** Python's truth value of an optional string: [None] and [''] are false. *)
Definition truthy (v : option string) : bool :=
  match v with
  | Some (String _ _) => true
  | _ => false
  end.

(** [s] occurs in [line] as a contiguous piece. *)
Definition occurs_in (s line : string) : Prop :=
  ∃ before after, line = before +:+ s +:+ after.

(** ** Exceptions *)

Inductive exn :=
  | Psycopg2Error (msg : string)
  | PyException (cls msg : string)
  | SystemExit (code : Z).

(** ** The class Colors and the four log functions *)

Module Colors.
Definition RED : string := ESC +:+ "[91m".
Definition GREEN : string := ESC +:+ "[92m".
Definition YELLOW : string := ESC +:+ "[93m".
Definition BLUE : string := ESC +:+ "[94m".
Definition RESET : string := ESC +:+ "[0m".
End Colors.

Definition error_line (msg : string) : string :=
  Colors.RED +:+ "✗ " +:+ msg +:+ Colors.RESET.
Definition success_line (msg : string) : string :=
  Colors.GREEN +:+ "✓ " +:+ msg +:+ Colors.RESET.
Definition info_line (msg : string) : string :=
  Colors.BLUE +:+ "→ " +:+ msg +:+ Colors.RESET.
Definition warning_line (msg : string) : string :=
  Colors.YELLOW +:+ "⚠ " +:+ msg +:+ Colors.RESET.

(** ** Connection parameters and observable events *)

Record ConnParams := {
  host : string;
  port : Z;
  database : string;
  user : string;
  password : string;
  sslmode : string
}.

Inductive event :=
  | Print (line : string)
  | OpenFile (path : string)
  | Connect (dsn : ConnParams)
  | Cursor
  | CursorClose
  | Execute (sql : string) (args : option (list string))
  | FetchOne
  | Commit
  | Rollback
  | Close.

(** ** The environment of one run *)

Inductive read_result :=
  | ReadOk (text : string)
  | ReadRaises (cls msg : string).

Inductive url_result :=
  | UrlRaises (msg : string)
  | UrlHostname (hostname : option string).

(** What the script finds on the machine it runs on.  [environ] is the
    process environment as [os.getenv] sees it once [load_dotenv] has
    run; [migrations] is the set of entry names of [supabase/migrations],
    or [None] when that path does not exist; [read_text] is the result
    of opening and reading a path. *)
Record Host := {
  env_local_exists : bool;
  environ : string → option string;
  migrations : option (gset string);
  read_text : string → read_result
}.

(** The calls of [psycopg2] the script makes, on an abstract database
    world [W]: the state of the server and of the network, which every
    call may change.  A call returns, or raises [psycopg2.Error] with a
    message ([Some msg]); the library raises no other exception.
    [pg_fetchone] is [cur.fetchone()[0]] after the [EXISTS] query, whose
    one row holds one boolean. *)
Class Psycopg2 (W : Type) := {
  pg_connect : ConnParams → W → W * option string;
  pg_cursor : W → W * option string;
  pg_execute : string → option (list string) → W → W * option string;
  pg_fetchone : W → W * (string + bool);
  pg_commit : W → W * option string;
  pg_close : W → W * option string
}.

(** ** The state, output and exception monad *)

Section Script.
Context {W : Type} {db : Psycopg2 W}.

(** The library function [urlparse(url).hostname], a parameter of the
    development: it raises [ValueError], or yields a hostname or
    [None]. *)
Variable urlparse_hostname : string → url_result.

Variable h : Host.

Record State := {
  world : W;
  failed_migrations : list string;
  missing_tables : list string
}.

Record Out (A : Type) := {
  st : State;
  evs : list event;
  res : exn + A
}.
Global Arguments st {A} _.
Global Arguments evs {A} _.
Global Arguments res {A} _.

Definition M (A : Type) : Type := State → Out A.

Definition ret {A} (a : A) : M A :=
  λ s, {| st := s; evs := []; res := inr a |}.

Definition bind {A B} (m : M A) (k : A → M B) : M B :=
  λ s,
    let r := m s in
    match res r with
    | inl e => {| st := st r; evs := evs r; res := inl e |}
    | inr a =>
        let r' := k a (st r) in
        {| st := st r'; evs := evs r ++ evs r'; res := res r' |}
    end.

Definition raise {A} (e : exn) : M A :=
  λ s, {| st := s; evs := []; res := inl e |}.

(** [try: body / except ...: handler]: [handler e] is [None] when no
    clause matches [e], which then propagates. *)
Definition try_except {A} (body : M A) (handler : exn → option (M A)) : M A :=
  λ s,
    let r := body s in
    match res r with
    | inr a => r
    | inl e =>
        match handler e with
        | None => r
        | Some k =>
            let r' := k (st r) in
            {| st := st r'; evs := evs r ++ evs r'; res := res r' |}
        end
    end.

(** [with ... :] on a resource whose release [after] cannot fail. *)
Definition try_finally {A} (body : M A) (after : list event) : M A :=
  λ s,
    let r := body s in
    {| st := st r; evs := evs r ++ after; res := res r |}.

Global Instance M_ret : MRet M := @ret.
Global Instance M_bind : MBind M := λ A B k m, bind m k.

Fixpoint for_each {A} (l : list A) (body : A → M unit) : M unit :=
  match l with
  | [] => ret tt
  | x :: l' => body x;; for_each l' body
  end.

(** *** Primitive statements *)

Definition emit (e : event) : M unit :=
  λ s, {| st := s; evs := [e]; res := inr tt |}.

Definition print (line : string) : M unit := emit (Print line).
Definition log_error (msg : string) : M unit := print (error_line msg).
Definition log_success (msg : string) : M unit := print (success_line msg).
Definition log_info (msg : string) : M unit := print (info_line msg).
Definition log_warning (msg : string) : M unit := print (warning_line msg).

Definition sys_exit {A} (code : Z) : M A := raise (SystemExit code).

Definition set_world (s : State) (w : W) : State :=
  {| world := w;
     failed_migrations := failed_migrations s;
     missing_tables := missing_tables s |}.

(** A call to the database: the event is observed, the world moves on,
    and an error reply is raised as [psycopg2.Error]. *)
Definition db_call (e : event) (op : W → W * option string) : M unit :=
  λ s,
    let '(w, reply) := op (world s) in
    {| st := set_world s w;
       evs := [e];
       res := match reply with
              | None => inr tt
              | Some msg => inl (Psycopg2Error msg)
              end |}.

Definition connect (dsn : ConnParams) : M unit :=
  db_call (Connect dsn) (pg_connect dsn).
Definition cursor : M unit := db_call Cursor pg_cursor.
Definition execute (sql : string) (args : option (list string)) : M unit :=
  db_call (Execute sql args) (pg_execute sql args).
Definition commit : M unit := db_call Commit pg_commit.
Definition close : M unit := db_call Close pg_close.

(** [cur.fetchone()[0]] after an [EXISTS] query. *)
Definition fetchone : M bool :=
  λ s,
    let '(w, reply) := pg_fetchone (world s) in
    {| st := set_world s w;
       evs := [FetchOne];
       res := match reply with
              | inr b => inr b
              | inl msg => inl (Psycopg2Error msg)
              end |}.

(** [with conn.cursor() as cur: body]. *)
Definition with_cursor {A} (body : M A) : M A :=
  cursor;; try_finally body [CursorClose].

(** [with open(path, 'r') as f: sql = f.read()]. *)
Definition open_read (path : string) : M string :=
  emit (OpenFile path);;
  match read_text h path with
  | ReadOk text => ret text
  | ReadRaises cls msg => raise (PyException cls msg)
  end.

Definition failed_migrations_append (filename : string) : M unit :=
  λ s,
    {| st := {| world := world s;
                failed_migrations := failed_migrations s ++ [filename];
                missing_tables := missing_tables s |};
       evs := [];
       res := inr tt |}.

Definition missing_tables_append (table : string) : M unit :=
  λ s,
    {| st := {| world := world s;
                failed_migrations := failed_migrations s;
                missing_tables := missing_tables s ++ [table] |};
       evs := [];
       res := inr tt |}.

Definition failed_migrations_init : M unit :=
  λ s,
    {| st := {| world := world s;
                failed_migrations := [];
                missing_tables := missing_tables s |};
       evs := [];
       res := inr tt |}.

Definition missing_tables_init : M unit :=
  λ s,
    {| st := {| world := world s;
                failed_migrations := failed_migrations s;
                missing_tables := [] |};
       evs := [];
       res := inr tt |}.

Definition get_failed_migrations : M (list string) :=
  λ s, {| st := s; evs := []; res := inr (failed_migrations s) |}.
Definition get_missing_tables : M (list string) :=
  λ s, {| st := s; evs := []; res := inr (missing_tables s) |}.

(** ** The script *)

(** Lines 35 to 55: the banner, the environment file and the two
    required variables. *)
Definition banner : string :=
  Colors.GREEN +:+ "=== Supabase Database Setup (Python) ==="
    +:+ Colors.RESET +:+ nl.

Definition load_configuration : M (string * string) :=
  print banner;;
  (if env_local_exists h then mret tt
   else
     log_error ".env.local file not found!";;
     print "Please create .env.local with your Supabase credentials";;
     sys_exit 1);;
  let supabase_url := environ h "NEXT_PUBLIC_SUPABASE_URL" in
  let service_role_key := environ h "SUPABASE_SERVICE_ROLE_KEY" in
  if negb (truthy supabase_url) || negb (truthy service_role_key) then
    log_error "Missing required environment variables!";;
    print "Please ensure the following are set in .env.local:";;
    print "  - NEXT_PUBLIC_SUPABASE_URL";;
    print "  - SUPABASE_SERVICE_ROLE_KEY";;
    sys_exit 1
  else mret (default "" supabase_url, default "" service_role_key).

(** Lines 59 and 60, the body of the [try]:
    [urlparse(supabase_url).hostname.split('.')[0]]. *)
Definition project_ref_of (supabase_url : string) : exn + string :=
  match urlparse_hostname supabase_url with
  | UrlRaises msg => inl (PyException "ValueError" msg)
  | UrlHostname None =>
      inl (PyException "AttributeError"
             "'NoneType' object has no attribute 'split'")
  | UrlHostname (Some hostname) =>
      match split_char "."%char hostname with
      | label :: _ => inr label
      | [] => inl (PyException "IndexError" "list index out of range")
      end
  end.

(** Lines 58 to 67: the bare [except:] catches whatever the body
    raises. *)
Definition extract_project_ref (supabase_url : string) : M string :=
  project_ref ←
    try_except
      (match project_ref_of supabase_url with
       | inl e => raise e
       | inr label => mret label
       end)
      (λ _, Some (log_error "Could not parse Supabase URL";;
                  print "URL should be in format: https://yourproject.supabase.co";;
                  sys_exit 1));
  log_info ("Project Reference: " +:+ project_ref);;
  log_info ("Supabase URL: " +:+ supabase_url +:+ nl);;
  mret project_ref.

(** Lines 71 to 75. *)
Definition db_host : string := "aws-0-us-west-1.pooler.supabase.com".
Definition db_port : Z := 6543.
Definition db_name : string := "postgres".
Definition db_user (project_ref : string) : string :=
  "postgres." +:+ project_ref.
Definition db_password (service_role_key : string) : string :=
  service_role_key.

(** The keyword arguments of every [psycopg2.connect] of the script. *)
Definition connection_params (project_ref service_role_key : string)
  : ConnParams :=
  {| host := db_host;
     port := db_port;
     database := db_name;
     user := db_user project_ref;
     password := db_password service_role_key;
     sslmode := "require" |}.

(** Lines 78 to 94. *)
Definition test_connection (dsn : ConnParams) : M unit :=
  try_except
    (log_info "Testing database connection...";;
     connect dsn;;
     close;;
     log_success ("Successfully connected to Supabase database" +:+ nl))
    (λ e,
       match e with
       | Psycopg2Error msg =>
           Some (log_error ("Could not connect to database: " +:+ msg);;
                 print (nl +:+ "Please check your credentials and try again.");;
                 print "Note: Make sure you're using the SERVICE_ROLE_KEY, not the ANON_KEY";;
                 sys_exit 1)
       | _ => None
       end).

Definition migration_dir : string := "supabase/migrations".

(** [sorted(migration_dir.glob('*.sql'))], as file names: the paths
    share their directory, so they compare as their names do. *)
Definition sorted_sql_files (entries : gset string) : list string :=
  merge_sort String.le (filter (λ name, has_suffix ".sql" name = true)
                               (elements entries)).

(** Lines 97 to 107. *)
Definition get_migration_files : M (list string) :=
  match migrations h with
  | None =>
      log_error ("Migration directory not found: " +:+ migration_dir);;
      sys_exit 1
  | Some entries =>
      let migration_files := sorted_sql_files entries in
      match migration_files with
      | [] => log_error "No SQL migration files found!";; sys_exit 1
      | _ :: _ =>
          log_info ("Found " +:+ str_of_nat (length migration_files)
                      +:+ " migration files" +:+ nl);;
          mret migration_files
      end
  end.

(** Lines 117 to 137: the body of the [try] of the loop. *)
Definition migration_body (dsn : ConnParams) (filename : string) : M unit :=
  sql ← open_read (migration_dir +:+ "/" +:+ filename);
  connect dsn;;
  with_cursor (execute sql None;; commit);;
  close;;
  log_success (filename +:+ " completed successfully" +:+ nl).

(** Lines 139 to 147: the two [except] clauses of the loop. *)
Definition migration_handler (filename : string) (e : exn) : option (M unit) :=
  match e with
  | Psycopg2Error msg =>
      Some (log_error (filename +:+ " failed: " +:+ msg +:+ nl);;
            failed_migrations_append filename)
  | PyException _ msg =>
      Some (log_error (filename +:+ " failed with unexpected error: "
                         +:+ msg +:+ nl);;
            failed_migrations_append filename)
  | SystemExit _ => None
  end.

(** Lines 113 to 147: one turn of the loop. *)
Definition run_migration (dsn : ConnParams) (filename : string) : M unit :=
  log_info ("Running migration: " +:+ filename);;
  try_except (migration_body dsn filename) (migration_handler filename).

(** Lines 110 to 147. *)
Definition run_migrations (dsn : ConnParams) (migration_files : list string)
  : M unit :=
  failed_migrations_init;;
  for_each migration_files (run_migration dsn).

Definition tables_to_check : list string := ["users"; "articles"; "workers"].

Definition exists_query : string :=
  nl +:+ "                SELECT EXISTS ("
  +:+ nl +:+ "                    SELECT FROM information_schema.tables "
  +:+ nl +:+ "                    WHERE table_schema = 'public' "
  +:+ nl +:+ "                    AND table_name = %s"
  +:+ nl +:+ "                );"
  +:+ nl +:+ "            ".

(** Lines 166 to 180: one turn of the inner loop. *)
Definition check_table (table : string) : M unit :=
  execute exists_query (Some [table]);;
  exists_ ← fetchone;
  if (exists_ : bool) then log_success ("Table '" +:+ table +:+ "' exists")
  else
    log_error ("Table '" +:+ table +:+ "' not found");;
    missing_tables_append table.

(** Lines 156 to 182: the body of the [try] of the verification. *)
Definition verification_body (dsn : ConnParams) : M unit :=
  connect dsn;;
  with_cursor (for_each tables_to_check check_table);;
  close.

Definition verifying : string :=
  nl +:+ Colors.YELLOW +:+ "Verifying database setup..."
    +:+ Colors.RESET +:+ nl.

(** Lines 150 to 187. *)
Definition verify_tables (dsn : ConnParams) : M unit :=
  print verifying;;
  missing_tables_init;;
  try_except (verification_body dsn)
    (λ e,
       match e with
       | Psycopg2Error msg =>
           Some (log_error ("Error checking tables: " +:+ msg))
       | _ => None
       end);;
  print "".

Definition success_banner : string :=
  Colors.GREEN +:+ "=== Database setup completed successfully! ==="
    +:+ Colors.RESET +:+ nl.
Definition error_banner : string :=
  Colors.RED +:+ "=== Setup completed with errors ==="
    +:+ Colors.RESET +:+ nl.

(** Lines 190 to 207, as the lines printed for the two lists. *)
Definition summary_lines (missing failed : list string) : list string :=
  match missing, failed with
  | [], [] =>
      [ success_banner;
        "You can now:";
        "  1. Register new users at http://localhost:3000/login";
        "  2. Create and manage articles";
        "  3. Track user activity" ]
  | _, _ =>
      [ error_banner ]
      ++ (match failed with
          | [] => []
          | _ :: _ =>
              [ "Failed migrations: " +:+ join ", " failed;
                "Please check the errors above and fix them." ]
          end)
      ++ (match missing with
          | [] => []
          | _ :: _ =>
              [ "Missing tables: " +:+ join ", " missing;
                "You may need to run the failed migrations manually." ]
          end)
      ++ [ nl +:+ "You can run migrations manually in the Supabase SQL Editor." ]
  end.

Definition final_summary : M unit :=
  missing ← get_missing_tables;
  failed ← get_failed_migrations;
  for_each (summary_lines missing failed) print.

(** Lines 35 to 107: everything that can end the run with
    [sys.exit(1)].  It yields the connection parameters and the sorted
    migration files. *)
Definition preflight : M (ConnParams * list string) :=
  '(supabase_url, service_role_key) ← load_configuration;
  project_ref ← extract_project_ref supabase_url;
  let dsn := connection_params project_ref service_role_key in
  test_connection dsn;;
  migration_files ← get_migration_files;
  mret (dsn, migration_files).

(** The whole script. *)
Definition main : M unit :=
  '(dsn, migration_files) ← preflight;
  run_migrations dsn migration_files;;
  verify_tables dsn;;
  final_summary.

(** The exit status of the process: 0 when the script runs to its
    end, the argument of [sys.exit], and 1 for an exception nobody
    caught. *)
Definition exit_status (r : Out unit) : Z :=
  match res r with
  | inr _ => 0
  | inl (SystemExit code) => code
  | inl _ => 1
  end.

Definition initial (w : W) : State :=
  {| world := w; failed_migrations := []; missing_tables := [] |}.

Definition run (w : W) : Out unit := main (initial w).

(** *** Observations on a run *)

(** What was written to standard output. *)
Definition printed {A} (r : Out A) : list string :=
  omap (λ e, match e with Print line => Some line | _ => None end) (evs r).

(** The connections the script tried to open. *)
Definition connections {A} (r : Out A) : list ConnParams :=
  omap (λ e, match e with Connect dsn => Some dsn | _ => None end) (evs r).

(** The files the script tried to open. *)
Definition opened {A} (r : Out A) : list string :=
  omap (λ e, match e with OpenFile path => Some path | _ => None end) (evs r).

(** The state in which the verification step starts. *)
Definition before_verification (w : W) : Out unit :=
  ('(dsn, migration_files) ← preflight;
   run_migrations dsn migration_files) (initial w).

Definition with_failed (s : State) (failed : list string) : State :=
  {| world := world s; failed_migrations := failed;
     missing_tables := missing_tables s |}.

Definition with_missing (s : State) (missing : list string) : State :=
  {| world := world s; failed_migrations := failed_migrations s;
     missing_tables := missing |}.

(** *** Properties of a piece of the script *)

(** Whatever [m] raises satisfies [E]. *)
Definition raises_only {A} (E : exn → Prop) (m : M A) : Prop :=
  ∀ s e, res (m s) = inl e → E e.

(** Every event of [m] satisfies [Q]. *)
Definition emits_only {A} (Q : event → Prop) (m : M A) : Prop :=
  ∀ s, Forall Q (evs (m s)).

(** [m] leaves the component [f] of the state as it was. *)
Definition keeps {A X} (f : State → X) (m : M A) : Prop :=
  ∀ s, f (st (m s)) = f s.

Definition never (e : exn) : Prop := False.

Definition is_Exception (e : exn) : Prop :=
  match e with SystemExit _ => False | _ => True end.

Definition is_psycopg2_Error (e : exn) : Prop :=
  match e with Psycopg2Error _ => True | _ => False end.

(** The event is no connection to another database than [dsn], and no
    rollback. *)
Definition talks_to (dsn : ConnParams) (e : event) : Prop :=
  match e with
  | Connect d => d = dsn
  | Rollback => False
  | _ => True
  end.

(** The event opens no file. *)
Definition no_open (e : event) : Prop :=
  match e with
  | OpenFile _ => False
  | _ => True
  end.

(** The event is no rollback. *)
Definition no_rollback (e : event) : Prop :=
  match e with
  | Rollback => False
  | _ => True
  end.

(** One of the two banners of the final summary. *)
Definition summary_banner (line : string) : Prop :=
  line = success_banner ∨ line = error_banner.

(** The event prints no banner of the final summary. *)
Definition no_banner (e : event) : Prop :=
  match e with
  | Print line => ¬ summary_banner line
  | _ => True
  end.

(** *** The conditions the claims speak of *)

Definition URL_VAR : string := "NEXT_PUBLIC_SUPABASE_URL".
Definition KEY_VAR : string := "SUPABASE_SERVICE_ROLE_KEY".

(** A required variable is missing: unset, or set to the empty string. *)
Definition variable_missing (name : string) : Prop :=
  environ h name = None ∨ environ h name = Some "".

Definition probe_succeeds (dsn : ConnParams) (w : W) : Prop :=
  ∃ w1 w2, pg_connect dsn w = (w1, None) ∧ pg_close w1 = (w2, None).

Definition probe_fails (dsn : ConnParams) (w : W) : Prop :=
  (∃ w1 msg, pg_connect dsn w = (w1, Some msg))
  ∨ (∃ w1 w2 msg, pg_connect dsn w = (w1, None) ∧ pg_close w1 = (w2, Some msg)).

Definition sql_file (name : string) : Prop := has_suffix ".sql" name = true.

(** All the fatal preconditions pass. *)
Definition preconditions_hold (w : W) : Prop :=
  env_local_exists h = true
  ∧ ∃ url key ref entries,
      environ h URL_VAR = Some url ∧ url ≠ ""
      ∧ environ h KEY_VAR = Some key ∧ key ≠ ""
      ∧ project_ref_of url = inr ref
      ∧ probe_succeeds (connection_params ref key) w
      ∧ migrations h = Some entries
      ∧ ∃ name, name ∈ entries ∧ sql_file name.

(** One of the fatal preconditions fails. *)
Inductive fatal_precondition (w : W) : Prop :=
  | missing_env_file :
      env_local_exists h = false → fatal_precondition w
  | missing_variable name :
      name = URL_VAR ∨ name = KEY_VAR →
      variable_missing name → fatal_precondition w
  | unparseable_url url e :
      environ h URL_VAR = Some url →
      project_ref_of url = inl e → fatal_precondition w
  | failed_probe url key ref :
      environ h URL_VAR = Some url →
      environ h KEY_VAR = Some key →
      project_ref_of url = inr ref →
      probe_fails (connection_params ref key) w → fatal_precondition w
  | missing_migration_dir :
      migrations h = None → fatal_precondition w
  | no_sql_files entries :
      migrations h = Some entries →
      (∀ name, name ∈ entries → ¬ sql_file name) → fatal_precondition w.

(** The parameters the script derives from the environment. *)
Definition derived_params (dsn : ConnParams) : Prop :=
  ∃ url key ref,
    environ h URL_VAR = Some url ∧ environ h KEY_VAR = Some key
    ∧ project_ref_of url = inr ref
    ∧ dsn = connection_params ref key.

(** The answers of the catalog to the existence queries for [tables],
    asked in turn from the world [w]; [None] when a call raises. *)
Fixpoint catalog_answers (tables : list string) (w : W) : option (list bool) :=
  match tables with
  | [] => Some []
  | table :: tables' =>
      match pg_execute exists_query (Some [table]) w with
      | (_, Some _) => None
      | (w1, None) =>
          match pg_fetchone w1 with
          | (_, inl _) => None
          | (w2, inr answer) => cons answer <$> catalog_answers tables' w2
          end
      end
  end.

(** The answers the verification step gets from the database when it
    starts in the world [w]. *)
Definition verification_answers (dsn : ConnParams) (w : W)
  : option (list bool) :=
  match pg_connect dsn w with
  | (_, Some _) => None
  | (w1, None) =>
      match pg_cursor w1 with
      | (_, Some _) => None
      | (w2, None) => catalog_answers tables_to_check w2
      end
  end.

(** The tables reported absent, in the order they were asked about. *)
Definition absent (tables : list string) (answers : list bool) : list string :=
  (filter (λ ta, ta.2 = false) (zip tables answers)).*1.

(** *** More observations on a run *)

(** The path of a migration file. *)
Definition migration_path (filename : string) : string :=
  migration_dir +:+ "/" +:+ filename.

(** The migration file can be opened and read. *)
Definition readable (filename : string) : bool :=
  match read_text h (migration_path filename) with
  | ReadOk _ => true
  | ReadRaises _ _ => false
  end.

(** The statements sent to the database, with their arguments. *)
Definition executed {A} (r : Out A) : list (string * option (list string)) :=
  omap (λ e, match e with
             | Execute sql args => Some (sql, args)
             | _ => None
             end) (evs r).

(** The tables the catalog was asked about, in a list of events and in
    a run. *)
Definition queried (l : list event) : list string :=
  omap (λ e, match e with
             | Execute _ (Some [table]) => Some table
             | _ => None
             end) l.

Definition asked {A} (r : Out A) : list string := queried (evs r).

(** The commits. *)
Definition commits {A} (r : Out A) : nat :=
  length (omap (λ e, match e with Commit => Some tt | _ => None end) (evs r)).

(** The event sends no statement to the database and opens no file: it
    is a print, the opening of a connection or its closing. *)
Definition no_statement (e : event) : Prop :=
  match e with
  | Print _ | Connect _ | Close => True
  | _ => False
  end.

(** The event changes nothing: it is no commit, no rollback, and when
    it is a statement, it is the catalog query about one of the three
    tables. *)
Definition read_only (e : event) : Prop :=
  match e with
  | Commit | Rollback | OpenFile _ => False
  | Execute sql args =>
      sql = exists_query
      ∧ ∃ table, table ∈ tables_to_check ∧ args = Some [table]
  | _ => True
  end.

(** The event opens no connection. *)
Definition no_connect (e : event) : Prop :=
  match e with
  | Connect _ => False
  | _ => True
  end.

(** The line is one of [log_success]. *)
Definition is_success_line (line : string) : bool :=
  String.prefix (Colors.GREEN +:+ "✓ ") line.

End Script.

(** ** A model of [urllib.parse.urlparse(url).hostname]

    Written after CPython 3.12's [urlsplit] and [_hostinfo], for a [str]
    argument made of ASCII characters.  Only what decides the hostname is
    kept: the query and the fragment are not split off, since the
    network location ends at the first of [/], [?] and [#] anyway.  The
    check of the address inside a bracketed IP literal is not modelled:
    the hostname of such a literal is what stands between the brackets. *)
Module Urllib.

Definition code (a : ascii) : nat := nat_of_ascii a.

Definition is_c0_or_space (a : ascii) : bool := Nat.leb (code a) 32.
Definition is_unsafe (a : ascii) : bool :=
  Nat.eqb (code a) 9 || Nat.eqb (code a) 10 || Nat.eqb (code a) 13.
Definition is_upper (a : ascii) : bool :=
  Nat.leb 65 (code a) && Nat.leb (code a) 90.
Definition is_lower (a : ascii) : bool :=
  Nat.leb 97 (code a) && Nat.leb (code a) 122.
Definition is_digit (a : ascii) : bool :=
  Nat.leb 48 (code a) && Nat.leb (code a) 57.
Definition is_alpha (a : ascii) : bool := is_upper a || is_lower a.
Definition is_scheme_char (a : ascii) : bool :=
  is_alpha a || is_digit a
  || bool_decide (a = "+"%char) || bool_decide (a = "-"%char)
  || bool_decide (a = "."%char).

Definition lower_char (a : ascii) : ascii :=
  if is_upper a then ascii_of_nat (code a + 32) else a.

Fixpoint lower (s : string) : string :=
  match s with
  | EmptyString => EmptyString
  | String a s' => String (lower_char a) (lower s')
  end.

(** [url.lstrip(_WHATWG_C0_CONTROL_OR_SPACE)] *)
Fixpoint lstrip_c0 (s : string) : string :=
  match s with
  | String a s' => if is_c0_or_space a then lstrip_c0 s' else s
  | EmptyString => EmptyString
  end.

(** The tab, carriage return and line feed are removed everywhere. *)
Fixpoint remove_unsafe (s : string) : string :=
  match s with
  | EmptyString => EmptyString
  | String a s' =>
      if is_unsafe a then remove_unsafe s' else String a (remove_unsafe s')
  end.

Fixpoint all_chars (p : ascii → bool) (s : string) : bool :=
  match s with
  | EmptyString => true
  | String a s' => p a && all_chars p s'
  end.

Fixpoint contains (c : ascii) (s : string) : bool :=
  match s with
  | EmptyString => false
  | String a s' => bool_decide (a = c) || contains c s'
  end.

(** [s.partition(c)]: the text before the first [c], and the text
    after it when there is one. *)
Fixpoint partition (c : ascii) (s : string) : string * option string :=
  match s with
  | EmptyString => (EmptyString, None)
  | String a s' =>
      if decide (a = c) then (EmptyString, Some s')
      else let '(before, after) := partition c s' in (String a before, after)
  end.

(** [s.rpartition(c)[2]]: the text after the last [c]. *)
Fixpoint after_last (c : ascii) (s : string) : string :=
  match s with
  | EmptyString => EmptyString
  | String a s' =>
      if contains c s' then after_last c s'
      else if decide (a = c) then s'
      else s
  end.

(** The scheme is split off when the text before the first colon is
    not empty, begins with a letter and is made of scheme characters. *)
Definition strip_scheme (url : string) : string :=
  match partition ":" url with
  | (String a before, Some rest) =>
      if is_alpha a && all_chars is_scheme_char (String a before)
      then rest else url
  | _ => url
  end.

(** [_splitnetloc(url, 2)]: up to the first of [/], [?] and [#]. *)
Fixpoint netloc_of (s : string) : string :=
  match s with
  | EmptyString => EmptyString
  | String a s' =>
      if bool_decide (a = "/"%char) || bool_decide (a = "?"%char)
         || bool_decide (a = "#"%char)
      then EmptyString else String a (netloc_of s')
  end.

(** The network location, or [None] for [ValueError]. *)
Definition netloc (url : string) : option string :=
  match strip_scheme (remove_unsafe (lstrip_c0 url)) with
  | String "/" (String "/" rest) =>
      let n := netloc_of rest in
      if xorb (contains "[" n) (contains "]" n) then None else Some n
  | _ => Some EmptyString
  end.

(** [_hostinfo[0]] *)
Definition hostinfo (n : string) : string :=
  let info := after_last "@" n in
  match partition "[" info with
  | (_, Some bracketed) => fst (partition "]" bracketed)
  | (_, None) => fst (partition ":" info)
  end.

(** The property [hostname]: [None] for an empty host; the zone of a
    scoped address, after [%], keeps its case. *)
Definition hostname (url : string) : url_result :=
  match netloc url with
  | None => UrlRaises "Invalid IPv6 URL"
  | Some n =>
      match hostinfo n with
      | EmptyString => UrlHostname None
      | name =>
          match partition "%" name with
          | (before, Some zone) =>
              UrlHostname (Some (lower before +:+ "%" +:+ zone))
          | (before, None) => UrlHostname (Some (lower before))
          end
      end
  end.

End Urllib.

(** ** A small database to run the script on

    A world for the examples: the public tables, the tables a batch has
    created and not yet committed, the table the last catalog query asked
    about, and a clock that counts the calls.  The calls whose number is
    in [faults] raise.  A batch is either empty, or [CREATE TABLE name]
    for a table that does not exist; anything else is an error. *)
Module MemDb.

Record db := {
  tables : list string;
  staged : list string;
  asked : option string;
  clock : nat;
  faults : list nat
}.

Definition tick (d : db) : db :=
  {| tables := tables d; staged := staged d; asked := asked d;
     clock := S (clock d); faults := faults d |}.

Definition faulty (d : db) : bool := bool_decide (clock d ∈ faults d).

Definition call (effect : db → db + string) (d : db) : db * option string :=
  if faulty d then (tick d, Some "connection lost")
  else match effect d with
       | inl d' => (tick d', None)
       | inr msg => (tick d, Some msg)
       end.

Definition stage (name : string) (d : db) : db + string :=
  if bool_decide (name ∈ tables d ++ staged d)
  then inr ("relation " +:+ name +:+ " already exists")
  else inl {| tables := tables d; staged := staged d ++ [name];
              asked := asked d; clock := clock d; faults := faults d |}.

Definition run_batch (sql : string) (d : db) : db + string :=
  match String.words sql with
  | [] => inl d
  | ["CREATE"; "TABLE"; name] => stage name d
  | _ => inr "syntax error"
  end.

Definition ask (args : option (list string)) (d : db) : db + string :=
  match args with
  | Some [table] =>
      inl {| tables := tables d; staged := staged d; asked := Some table;
             clock := clock d; faults := faults d |}
  | _ => inr "wrong number of arguments"
  end.

Definition do_commit (d : db) : db + string :=
  inl {| tables := tables d ++ staged d; staged := []; asked := asked d;
         clock := clock d; faults := faults d |}.

Definition do_close (d : db) : db + string :=
  inl {| tables := tables d; staged := []; asked := None;
         clock := clock d; faults := faults d |}.

Definition fetch (d : db) : db * (string + bool) :=
  if faulty d then (tick d, inl "connection lost")
  else match asked d with
       | Some table => (tick d, inr (bool_decide (table ∈ tables d)))
       | None => (tick d, inl "no results to fetch")
       end.

#[global] Instance psycopg2 : Psycopg2 db := {|
  pg_connect := λ _, call inl;
  pg_cursor := call inl;
  pg_execute := λ sql args,
    call (match args with None => run_batch sql | Some _ => ask args end);
  pg_fetchone := fetch;
  pg_commit := call do_commit;
  pg_close := call do_close
|}.

Definition start (present : list string) (failing : list nat) : db :=
  {| tables := present; staged := []; asked := None;
     clock := 0; faults := failing |}.

(** A machine with the environment file, both variables, and the
    migration files [files], each a pair of a name and its text. *)
Definition configured (url key : string) (files : list (string * string))
  : Host :=
  {| env_local_exists := true;
     environ := λ name,
       if decide (name = "NEXT_PUBLIC_SUPABASE_URL") then Some url
       else if decide (name = "SUPABASE_SERVICE_ROLE_KEY") then Some key
       else None;
     migrations := Some (list_to_set (files.*1));
     read_text := λ path,
       match list_find (λ f, path = migration_dir +:+ "/" +:+ f.1) files with
       | Some (_, (_, text)) => ReadOk text
       | None => ReadRaises "FileNotFoundError" "No such file or directory"
       end |}.

End MemDb.

(** ** Machines and databases to run the script on *)
Module Sample.

Definition url : string := "https://abcxyz.supabase.co".
Definition key : string := "service-role-key".

(** Two migration files, found in the wrong order, and a file that is
    no migration.  The second migration is not valid SQL. *)
Definition files : list (string * string) :=
  [ ("002_b.sql", "CREATE TABEL articles");
    ("notes.txt", "remember the workers table");
    ("001_a.sql", "CREATE TABLE users") ].

Definition machine : Host := MemDb.configured url key files.

(** The same machine with a URL that has no scheme. *)
Definition schemeless : Host :=
  MemDb.configured "abcxyz.supabase.co" key files.

(** A machine without the environment file. *)
Definition unconfigured : Host :=
  {| env_local_exists := false;
     environ := λ _, None;
     migrations := None;
     read_text := λ _, ReadRaises "FileNotFoundError" "No such file or directory" |}.

(** A machine whose only migration creates the table [users]. *)
Definition single : Host :=
  MemDb.configured url key [("001_users.sql", "CREATE TABLE users")].

(** An empty database, and one that has the three tables already. *)
Definition empty : MemDb.db := MemDb.start [] [].
Definition populated : MemDb.db :=
  MemDb.start ["users"; "articles"; "workers"] [].

(** An empty database that drops the eighth call made to it: on
    [single], the connection of the verification. *)
Definition flaky : MemDb.db := MemDb.start [] [7%nat].

(** A machine whose environment file sets neither variable. *)
Definition blank : Host :=
  {| env_local_exists := true;
     environ := λ _, None;
     migrations := Some ∅;
     read_text := λ _, ReadRaises "FileNotFoundError" "No such file or directory" |}.

(** A machine without the migration directory, and one whose directory
    holds no SQL file. *)
Definition bare : Host :=
  {| env_local_exists := true;
     environ := environ machine;
     migrations := None;
     read_text := read_text machine |}.
Definition notes_only : Host :=
  MemDb.configured url key [("notes.txt", "remember the workers table")].

(** A machine whose migration file cannot be read. *)
Definition locked : Host :=
  {| env_local_exists := true;
     environ := environ machine;
     migrations := Some {[ "001_a.sql" ]};
     read_text := λ _, ReadRaises "PermissionError" "Permission denied" |}.

(** A database that refuses the first connection, and one that drops the
    fifth call made to it: in a turn of the loop, the closing of the
    connection. *)
Definition unreachable : MemDb.db := MemDb.start [] [0%nat].
Definition drops_close : MemDb.db := MemDb.start [] [4%nat].

Definition dsn : ConnParams :=
  {| host := "aws-0-us-west-1.pooler.supabase.com";
     port := 6543;
     database := "postgres";
     user := "postgres.abcxyz";
     password := key;
     sslmode := "require" |}.

End Sample.

(** * Properties *)

(** ** Strings and sorting *)

Lemma split_char_head (c : ascii) (s : string) :
  ∃ piece rest, split_char c s = piece :: rest.
Proof.
  destruct s as [|a s]; simpl; [by eauto|].
  destruct (decide (a = c)); [by eauto|].
  destruct (split_char c s); eauto.
Qed.

Lemma split_char_first_label (s : string) :
  ∃ rest, split_char "." s = first_label s :: rest.
Proof.
  induction s as [|a s [rest IH]]; simpl; [by eauto|].
  destruct (decide (a = "."%char)); [by eauto|].
  rewrite IH. eauto.
Qed.

Lemma first_label_no_dot (s : string) :
  Urllib.contains "." (first_label s) = false.
Proof.
  induction s as [|a s IH]; simpl; [done|].
  destruct (decide (a = "."%char)); simpl; [done|].
  rewrite IH. by rewrite bool_decide_eq_false_2.
Qed.

Lemma first_label_prefix (s : string) :
  s = first_label s ∨ ∃ rest, s = first_label s +:+ "." +:+ rest.
Proof.
  induction s as [|a s IH]; simpl; [by left|].
  destruct (decide (a = "."%char)) as [->|]; [right; by exists s|].
  destruct IH as [IH|[rest IH]].
  - left. by rewrite <-IH.
  - right. exists rest. unfold String.app in *. simpl. by rewrite <-IH.
Qed.

Lemma sorted_sql_files_elem_of (entries : gset string) (name : string) :
  name ∈ sorted_sql_files entries ↔ name ∈ entries ∧ has_suffix ".sql" name = true.
Proof.
  unfold sorted_sql_files.
  rewrite merge_sort_Permutation, list_elem_of_filter, elem_of_elements.
  tauto.
Qed.

Lemma sorted_sql_files_sorted (entries : gset string) :
  StronglySorted String.le (sorted_sql_files entries).
Proof. apply (StronglySorted_merge_sort _). Qed.

Lemma sorted_sql_files_NoDup (entries : gset string) :
  NoDup (sorted_sql_files entries).
Proof.
  unfold sorted_sql_files. rewrite merge_sort_Permutation.
  apply NoDup_filter, NoDup_elements.
Qed.

(** ** The monad *)

Section Properties.
Context {W : Type} {db : Psycopg2 W}.
Variable urlparse_hostname : string → url_result.
Variable h : Host.

Abbreviation State := (@State W).
Abbreviation Out := (@Out W).
Abbreviation M := (@M W).

Lemma bind_inr {A B} (m : M A) (k : A → M B) (s : State) (a : A) :
  res (m s) = inr a →
  (m ≫= k) s
  = {| st := st (k a (st (m s)));
       evs := evs (m s) ++ evs (k a (st (m s)));
       res := res (k a (st (m s))) |}.
Proof. intros Hm. unfold mbind, M_bind, bind. by rewrite Hm. Qed.

Lemma bind_inl {A B} (m : M A) (k : A → M B) (s : State) (e : exn) :
  res (m s) = inl e →
  (m ≫= k) s = {| st := st (m s); evs := evs (m s); res := inl e |}.
Proof. intros Hm. unfold mbind, M_bind, bind. by rewrite Hm. Qed.

Lemma Out_eta {A} (r : Out A) :
  r = {| st := st r; evs := evs r; res := res r |}.
Proof. by destruct r. Qed.

Lemma bind_assoc {A B C} (m : M A) (k : A → M B) (k' : B → M C) (s : State) :
  ((m ≫= k) ≫= k') s = (m ≫= λ a, k a ≫= k') s.
Proof.
  unfold mbind, M_bind, bind.
  destruct (res (m s)) as [e|a]; simpl; [done|].
  destruct (res (k a (st (m s)))) as [e|b]; simpl; [done|].
  by rewrite (assoc_L (++)).
Qed.

Lemma ret_bind {A B} (a : A) (k : A → M B) (s : State) :
  (mret a ≫= k) s = k a s.
Proof. unfold mbind, mret, M_bind, M_ret, bind, ret. simpl. symmetry. apply Out_eta. Qed.

(** A loop over [l1 ++ l2] is the loop over [l1] followed, when it
    returns, by the loop over [l2] from the state it reached. *)
Lemma for_each_app {A} (body : A → M unit) (l1 l2 : list A) (s : State) :
  for_each (l1 ++ l2) body s
  = (for_each l1 body ≫= λ _, for_each l2 body) s.
Proof.
  revert s. induction l1 as [|x l1 IH]; intros s; simpl.
  - by rewrite (ret_bind tt).
  - rewrite bind_assoc. unfold mbind, M_bind, bind.
    destruct (res (body x s)); [done|]. by rewrite IH.
Qed.


(** ** The phases of the script, one by one *)

Lemma bind_run_inr {A B} (m : M A) (k : A → M B) s s1 e1 a :
  m s = {| st := s1; evs := e1; res := inr a |} →
  (m ≫= k) s
  = {| st := st (k a s1); evs := e1 ++ evs (k a s1); res := res (k a s1) |}.
Proof. intros Hm. unfold mbind, M_bind, bind. by rewrite Hm. Qed.

Lemma bind_run_inl {A B} (m : M A) (k : A → M B) s s1 e1 e :
  m s = {| st := s1; evs := e1; res := inl e |} →
  (m ≫= k) s = {| st := s1; evs := e1; res := inl e |}.
Proof. intros Hm. unfold mbind, M_bind, bind. by rewrite Hm. Qed.

Lemma truthy_false (v : option string) :
  truthy v = false ↔ v = None ∨ v = Some "".
Proof.
  destruct v as [[|a v]|]; simpl; split; try tauto; try done.
  intros [?|?]; done.
Qed.

Lemma truthy_true (v : option string) :
  truthy v = true ↔ ∃ x, v = Some x ∧ x ≠ "".
Proof.
  destruct v as [[|a v]|]; simpl; split; try done.
  - by intros (x & [= <-] & ?).
  - by eauto.
  - by intros (x & ? & ?).
Qed.

Lemma load_configuration_no_env_file (s : State) :
  env_local_exists h = false →
  load_configuration h s
  = {| st := s;
       evs := [ Print banner;
                Print (error_line ".env.local file not found!");
                Print "Please create .env.local with your Supabase credentials" ];
       res := inl (SystemExit 1) |}.
Proof. intros Henv. unfold load_configuration. rewrite Henv. reflexivity. Qed.

Lemma load_configuration_missing_variable (s : State) :
  env_local_exists h = true →
  truthy (environ h URL_VAR) = false ∨ truthy (environ h KEY_VAR) = false →
  load_configuration h s
  = {| st := s;
       evs := [ Print banner;
                Print (error_line "Missing required environment variables!");
                Print "Please ensure the following are set in .env.local:";
                Print "  - NEXT_PUBLIC_SUPABASE_URL";
                Print "  - SUPABASE_SERVICE_ROLE_KEY" ];
       res := inl (SystemExit 1) |}.
Proof.
  intros Henv Hvars. unfold load_configuration, URL_VAR, KEY_VAR in *.
  rewrite Henv.
  assert (negb (truthy (environ h "NEXT_PUBLIC_SUPABASE_URL"))
          || negb (truthy (environ h "SUPABASE_SERVICE_ROLE_KEY")) = true) as Hor.
  { destruct Hvars as [-> | ->]; [done|]. by rewrite orb_true_r. }
  cbv zeta. rewrite Hor. reflexivity.
Qed.

Lemma load_configuration_returns (s : State) (url key : string) :
  env_local_exists h = true →
  environ h URL_VAR = Some url → url ≠ "" →
  environ h KEY_VAR = Some key → key ≠ "" →
  load_configuration h s
  = {| st := s; evs := [Print banner]; res := inr (url, key) |}.
Proof.
  intros Henv Hurl ? Hkey ?. unfold load_configuration, URL_VAR, KEY_VAR in *.
  rewrite Henv, Hurl, Hkey. destruct url, key; done.
Qed.

Lemma extract_project_ref_exits (s : State) (url : string) (e : exn) :
  project_ref_of urlparse_hostname url = inl e →
  extract_project_ref urlparse_hostname url s
  = {| st := s;
       evs := [ Print (error_line "Could not parse Supabase URL");
                Print "URL should be in format: https://yourproject.supabase.co" ];
       res := inl (SystemExit 1) |}.
Proof. intros Href. unfold extract_project_ref. rewrite Href. reflexivity. Qed.

Lemma extract_project_ref_returns (s : State) (url ref : string) :
  project_ref_of urlparse_hostname url = inr ref →
  extract_project_ref urlparse_hostname url s
  = {| st := s;
       evs := [ Print (info_line ("Project Reference: " +:+ ref));
                Print (info_line ("Supabase URL: " +:+ url +:+ nl)) ];
       res := inr ref |}.
Proof. intros Href. unfold extract_project_ref. rewrite Href. reflexivity. Qed.

Lemma test_connection_returns (s : State) dsn w1 w2 :
  pg_connect dsn (world s) = (w1, None) →
  pg_close w1 = (w2, None) →
  test_connection dsn s
  = {| st := set_world s w2;
       evs := [ Print (info_line "Testing database connection...");
                Connect dsn; Close;
                Print (success_line ("Successfully connected to Supabase database" +:+ nl)) ];
       res := inr tt |}.
Proof.
  intros Hc Hx.
  unfold test_connection, try_except, connect, close, db_call,
    mbind, M_bind, bind; simpl.
  rewrite Hc; simpl. rewrite Hx; simpl. reflexivity.
Qed.

Lemma test_connection_connect_fails (s : State) dsn w1 msg :
  pg_connect dsn (world s) = (w1, Some msg) →
  test_connection dsn s
  = {| st := set_world s w1;
       evs := [ Print (info_line "Testing database connection...");
                Connect dsn;
                Print (error_line ("Could not connect to database: " +:+ msg)) ]
              ++ [ Print (nl +:+ "Please check your credentials and try again.");
                   Print "Note: Make sure you're using the SERVICE_ROLE_KEY, not the ANON_KEY" ];
       res := inl (SystemExit 1) |}.
Proof.
  intros Hc.
  unfold test_connection, try_except, connect, close, db_call,
    mbind, M_bind, bind; simpl.
  rewrite Hc; simpl. reflexivity.
Qed.

Lemma test_connection_close_fails (s : State) dsn w1 w2 msg :
  pg_connect dsn (world s) = (w1, None) →
  pg_close w1 = (w2, Some msg) →
  test_connection dsn s
  = {| st := set_world s w2;
       evs := [ Print (info_line "Testing database connection...");
                Connect dsn; Close;
                Print (error_line ("Could not connect to database: " +:+ msg)) ]
              ++ [ Print (nl +:+ "Please check your credentials and try again.");
                   Print "Note: Make sure you're using the SERVICE_ROLE_KEY, not the ANON_KEY" ];
       res := inl (SystemExit 1) |}.
Proof.
  intros Hc Hx.
  unfold test_connection, try_except, connect, close, db_call,
    mbind, M_bind, bind; simpl.
  rewrite Hc; simpl. rewrite Hx; simpl. reflexivity.
Qed.

Lemma get_migration_files_no_dir (s : State) :
  migrations h = None →
  get_migration_files h s
  = {| st := s;
       evs := [ Print (error_line ("Migration directory not found: " +:+ migration_dir)) ];
       res := inl (SystemExit 1) |}.
Proof. intros Hd. unfold get_migration_files. rewrite Hd. reflexivity. Qed.

Lemma get_migration_files_none (s : State) entries :
  migrations h = Some entries →
  sorted_sql_files entries = [] →
  get_migration_files h s
  = {| st := s;
       evs := [ Print (error_line "No SQL migration files found!") ];
       res := inl (SystemExit 1) |}.
Proof.
  intros Hd He. unfold get_migration_files. rewrite Hd. cbv zeta.
  rewrite He. reflexivity.
Qed.

Lemma get_migration_files_returns (s : State) entries :
  migrations h = Some entries →
  sorted_sql_files entries ≠ [] →
  get_migration_files h s
  = {| st := s;
       evs := [ Print (info_line ("Found "
                  +:+ str_of_nat (length (sorted_sql_files entries))
                  +:+ " migration files" +:+ nl)) ];
       res := inr (sorted_sql_files entries) |}.
Proof.
  intros Hd He. unfold get_migration_files. rewrite Hd. cbv zeta.
  destruct (sorted_sql_files entries); [done|]. reflexivity.
Qed.

(** ** The preflight as a whole *)

Section Preflight.
Variable s : State.
Let r := preflight urlparse_hostname h s.

Lemma preflight_no_env_file :
  env_local_exists h = false →
  r = {| st := s;
         evs := [ Print banner;
                  Print (error_line ".env.local file not found!");
                  Print "Please create .env.local with your Supabase credentials" ];
         res := inl (SystemExit 1) |}.
Proof.
  intros Henv. subst r. unfold preflight.
  by erewrite bind_run_inl by by apply load_configuration_no_env_file.
Qed.

Lemma preflight_missing_variable :
  env_local_exists h = true →
  truthy (environ h URL_VAR) = false ∨ truthy (environ h KEY_VAR) = false →
  r = {| st := s;
         evs := [ Print banner;
                  Print (error_line "Missing required environment variables!");
                  Print "Please ensure the following are set in .env.local:";
                  Print "  - NEXT_PUBLIC_SUPABASE_URL";
                  Print "  - SUPABASE_SERVICE_ROLE_KEY" ];
         res := inl (SystemExit 1) |}.
Proof.
  intros Henv Hvars. subst r. unfold preflight.
  by erewrite bind_run_inl by by apply load_configuration_missing_variable.
Qed.

Context (url key : string).
Hypothesis Henv : env_local_exists h = true.
Hypothesis Hurl : environ h URL_VAR = Some url.
Hypothesis Hurl_ne : url ≠ "".
Hypothesis Hkey : environ h KEY_VAR = Some key.
Hypothesis Hkey_ne : key ≠ "".

Lemma preflight_unparseable_url e :
  project_ref_of urlparse_hostname url = inl e →
  r = {| st := s;
         evs := [ Print banner;
                  Print (error_line "Could not parse Supabase URL");
                  Print "URL should be in format: https://yourproject.supabase.co" ];
         res := inl (SystemExit 1) |}.
Proof.
  intros Href. subst r. unfold preflight.
  erewrite bind_run_inr by by apply load_configuration_returns.
  cbv beta iota.
  erewrite bind_run_inl by by eapply extract_project_ref_exits.
  done.
Qed.

Context (ref : string).
Hypothesis Href : project_ref_of urlparse_hostname url = inr ref.
Let dsn := connection_params ref key.

Lemma preflight_connect_fails w1 msg :
  pg_connect dsn (world s) = (w1, Some msg) →
  r = {| st := set_world s w1;
         evs := [ Print banner;
                  Print (info_line ("Project Reference: " +:+ ref));
                  Print (info_line ("Supabase URL: " +:+ url +:+ nl));
                  Print (info_line "Testing database connection...");
                  Connect dsn;
                  Print (error_line ("Could not connect to database: " +:+ msg));
                  Print (nl +:+ "Please check your credentials and try again.");
                  Print "Note: Make sure you're using the SERVICE_ROLE_KEY, not the ANON_KEY" ];
         res := inl (SystemExit 1) |}.
Proof.
  intros Hc. subst r. unfold preflight.
  erewrite bind_run_inr by by apply load_configuration_returns.
  cbv beta iota.
  erewrite bind_run_inr by by eapply extract_project_ref_returns.
  cbv beta iota zeta.
  erewrite bind_run_inl by by eapply test_connection_connect_fails.
  done.
Qed.

Lemma preflight_close_fails w1 w2 msg :
  pg_connect dsn (world s) = (w1, None) →
  pg_close w1 = (w2, Some msg) →
  r = {| st := set_world s w2;
         evs := [ Print banner;
                  Print (info_line ("Project Reference: " +:+ ref));
                  Print (info_line ("Supabase URL: " +:+ url +:+ nl));
                  Print (info_line "Testing database connection...");
                  Connect dsn; Close;
                  Print (error_line ("Could not connect to database: " +:+ msg));
                  Print (nl +:+ "Please check your credentials and try again.");
                  Print "Note: Make sure you're using the SERVICE_ROLE_KEY, not the ANON_KEY" ];
         res := inl (SystemExit 1) |}.
Proof.
  intros Hc Hx. subst r. unfold preflight.
  erewrite bind_run_inr by by apply load_configuration_returns.
  cbv beta iota.
  erewrite bind_run_inr by by eapply extract_project_ref_returns.
  cbv beta iota zeta.
  erewrite bind_run_inl by by eapply test_connection_close_fails.
  done.
Qed.

Context (w1 w2 : W).
Hypothesis Hconnect : pg_connect dsn (world s) = (w1, None).
Hypothesis Hclose : pg_close w1 = (w2, None).

Lemma preflight_no_dir :
  migrations h = None →
  r = {| st := set_world s w2;
         evs := [ Print banner;
                  Print (info_line ("Project Reference: " +:+ ref));
                  Print (info_line ("Supabase URL: " +:+ url +:+ nl));
                  Print (info_line "Testing database connection...");
                  Connect dsn; Close;
                  Print (success_line ("Successfully connected to Supabase database" +:+ nl));
                  Print (error_line ("Migration directory not found: " +:+ migration_dir)) ];
         res := inl (SystemExit 1) |}.
Proof.
  intros Hd. subst r. unfold preflight.
  erewrite bind_run_inr by by apply load_configuration_returns.
  cbv beta iota.
  erewrite bind_run_inr by by eapply extract_project_ref_returns.
  cbv beta iota zeta.
  erewrite bind_run_inr by by eapply test_connection_returns.
  erewrite bind_run_inl by by eapply get_migration_files_no_dir.
  done.
Qed.

Lemma preflight_no_files entries :
  migrations h = Some entries →
  sorted_sql_files entries = [] →
  r = {| st := set_world s w2;
         evs := [ Print banner;
                  Print (info_line ("Project Reference: " +:+ ref));
                  Print (info_line ("Supabase URL: " +:+ url +:+ nl));
                  Print (info_line "Testing database connection...");
                  Connect dsn; Close;
                  Print (success_line ("Successfully connected to Supabase database" +:+ nl));
                  Print (error_line "No SQL migration files found!") ];
         res := inl (SystemExit 1) |}.
Proof.
  intros Hd He. subst r. unfold preflight.
  erewrite bind_run_inr by by apply load_configuration_returns.
  cbv beta iota.
  erewrite bind_run_inr by by eapply extract_project_ref_returns.
  cbv beta iota zeta.
  erewrite bind_run_inr by by eapply test_connection_returns.
  erewrite bind_run_inl by by eapply get_migration_files_none.
  done.
Qed.

Lemma preflight_returns entries :
  migrations h = Some entries →
  sorted_sql_files entries ≠ [] →
  r = {| st := set_world s w2;
         evs := [ Print banner;
                  Print (info_line ("Project Reference: " +:+ ref));
                  Print (info_line ("Supabase URL: " +:+ url +:+ nl));
                  Print (info_line "Testing database connection...");
                  Connect dsn; Close;
                  Print (success_line ("Successfully connected to Supabase database" +:+ nl));
                  Print (info_line ("Found "
                    +:+ str_of_nat (length (sorted_sql_files entries))
                    +:+ " migration files" +:+ nl)) ];
         res := inr (dsn, sorted_sql_files entries) |}.
Proof.
  intros Hd He. subst r. unfold preflight.
  erewrite bind_run_inr by by apply load_configuration_returns.
  cbv beta iota.
  erewrite bind_run_inr by by eapply extract_project_ref_returns.
  cbv beta iota zeta.
  erewrite bind_run_inr by by eapply test_connection_returns.
  erewrite bind_run_inr by by eapply get_migration_files_returns.
  done.
Qed.

End Preflight.

Lemma sorted_sql_files_nil (entries : gset string) :
  sorted_sql_files entries = [] ↔ ∀ name, name ∈ entries → ¬ sql_file name.
Proof.
  split.
  - intros Hnil name Hin Hsql.
    assert (name ∈ sorted_sql_files entries) as Hn
      by by apply sorted_sql_files_elem_of.
    rewrite Hnil in Hn. by apply elem_of_nil in Hn.
  - intros Hnone. destruct (sorted_sql_files entries) as [|name l] eqn:Hl; [done|].
    assert (name ∈ sorted_sql_files entries) as Hn by (rewrite Hl; left).
    apply sorted_sql_files_elem_of in Hn as [Hin Hsql]. by destruct (Hnone name).
Qed.

Lemma probe_succeeds_not_fails dsn w :
  probe_succeeds dsn w → ¬ probe_fails dsn w.
Proof.
  intros (w1 & w2 & Hc & Hx) [(w1' & msg & Hc')|(w1' & w2' & msg & Hc' & Hx')].
  - congruence.
  - rewrite Hc in Hc'. injection Hc' as <-. congruence.
Qed.

(** The preconditions cannot hold and fail at once. *)
Lemma preconditions_exclusive w :
  preconditions_hold urlparse_hostname h w →
  ¬ fatal_precondition urlparse_hostname h w.
Proof.
  intros (Henv & url & key & ref & entries & Hurl & ? & Hkey & ? & Href
          & Hprobe & Hdir & name & Hin & Hsql) Hfatal.
  destruct Hfatal as [Hno|var Hvar Hmiss|url' e Hurl' He
                     |url' key' ref' Hurl' Hkey' Href' Hfail|Hnone|entries' Hd Hnosql].
  - congruence.
  - unfold variable_missing in Hmiss.
    destruct Hvar as [-> | ->], Hmiss as [Hm|Hm];
      rewrite Hm in *; simplify_eq.
  - congruence.
  - rewrite Hurl in Hurl'. rewrite Hkey in Hkey'. simplify_eq.
    rewrite Href in Href'. simplify_eq. by eapply probe_succeeds_not_fails.
  - congruence.
  - rewrite Hdir in Hd. simplify_eq. by eapply Hnosql.
Qed.

Lemma preflight_outcome (s : State) :
  let r := preflight urlparse_hostname h s in
  (∀ d, d ∈ connections r → derived_params urlparse_hostname h d)
  ∧ failed_migrations (st r) = failed_migrations s
  ∧ missing_tables (st r) = missing_tables s
  ∧ ((res r = inl (SystemExit 1)
      ∧ fatal_precondition urlparse_hostname h (world s)
      ∧ ∃ msg, error_line msg ∈ printed r)
     ∨ (∃ ref key entries,
          res r = inr (connection_params ref key, sorted_sql_files entries)
          ∧ preconditions_hold urlparse_hostname h (world s)
          ∧ derived_params urlparse_hostname h (connection_params ref key)
          ∧ migrations h = Some entries)).
Proof.
  assert (∀ d dsn, d ∈ [dsn] →
            derived_params urlparse_hostname h dsn →
            derived_params urlparse_hostname h d) as Hone.
  { by intros d dsn ->%list_elem_of_singleton. }
  destruct (env_local_exists h) eqn:Henv.
  2:{ rewrite preflight_no_env_file by done. cbn.
      split_and!; [by intros d ?%elem_of_nil|done..|].
      left. split_and!; [done|by constructor|].
      eexists. apply list_elem_of_further, list_elem_of_here. }
  destruct (truthy (environ h URL_VAR)) eqn:Hu.
  2:{ rewrite preflight_missing_variable by auto. cbn.
      split_and!; [by intros d ?%elem_of_nil|done..|].
      left. split_and!; [done| |].
      - apply (missing_variable _ _ _ URL_VAR); [by left|].
        by apply truthy_false.
      - eexists. apply list_elem_of_further, list_elem_of_here. }
  destruct (truthy (environ h KEY_VAR)) eqn:Hk.
  2:{ rewrite preflight_missing_variable by auto. cbn.
      split_and!; [by intros d ?%elem_of_nil|done..|].
      left. split_and!; [done| |].
      - apply (missing_variable _ _ _ KEY_VAR); [by right|].
        by apply truthy_false.
      - eexists. apply list_elem_of_further, list_elem_of_here. }
  apply truthy_true in Hu as (url & Hurl & ?).
  apply truthy_true in Hk as (key & Hkey & ?).
  destruct (project_ref_of urlparse_hostname url) as [e|ref] eqn:Href.
  { erewrite preflight_unparseable_url by done. cbn.
    split_and!; [by intros d ?%elem_of_nil|done..|].
    left. split_and!; [done|by eapply unparseable_url|].
    eexists. apply list_elem_of_further, list_elem_of_here. }
  assert (derived_params urlparse_hostname h (connection_params ref key))
    as Hdsn by by exists url, key, ref.
  destruct (pg_connect (connection_params ref key) (world s))
    as [w1 [msg|]] eqn:Hc.
  { erewrite preflight_connect_fails by done. cbn.
    split_and!; [by eauto|done..|].
    left. split_and!; [done| |].
    - eapply failed_probe; [done..|]. left. by eexists _, _.
    - eexists. do 4 apply list_elem_of_further. apply list_elem_of_here. }
  destruct (pg_close w1) as [w2 [msg|]] eqn:Hx.
  { erewrite preflight_close_fails by done. cbn.
    split_and!; [by eauto|done..|].
    left. split_and!; [done| |].
    - eapply failed_probe; [done..|]. right. by eexists _, _, _.
    - eexists. do 4 apply list_elem_of_further. apply list_elem_of_here. }
  destruct (migrations h) as [entries|] eqn:Hd.
  2:{ erewrite preflight_no_dir by done. cbn.
      split_and!; [by eauto|done..|].
      left. split_and!; [done|by apply missing_migration_dir|].
      eexists. do 5 apply list_elem_of_further. apply list_elem_of_here. }
  destruct (sorted_sql_files entries) as [|name files] eqn:He.
  { erewrite preflight_no_files by done. cbn.
    split_and!; [by eauto|done..|].
    left. split_and!; [done| |].
    - eapply no_sql_files; [done|]. by apply sorted_sql_files_nil.
    - eexists. do 5 apply list_elem_of_further. apply list_elem_of_here. }
  erewrite preflight_returns by (done || by rewrite He). cbn.
  split_and!; [by eauto|done..|].
  right. exists ref, key, entries. rewrite He. split_and!; [done| |done..].
  split; [done|]. exists url, key, ref, entries.
  split_and!; [done..|by exists w1, w2|done|].
  exists name. apply sorted_sql_files_elem_of. rewrite He. left.
Qed.

(** ** Rules for the properties of a piece of the script *)

Section Rules.
Context {A B : Type}.
Implicit Types (m : M A) (k : A → M B) (E : exn → Prop)
  (Q : event → Prop).

Lemma raises_only_ret E (a : A) : raises_only E (mret a : M A).
Proof. by intros s e. Qed.

Lemma raises_only_raise E e : E e → raises_only E (raise e : M A).
Proof. intros He s e' [= <-]. done. Qed.

Lemma raises_only_bind E m k :
  raises_only E m → (∀ a, raises_only E (k a)) → raises_only E (m ≫= k).
Proof.
  intros Hm Hk s e. unfold mbind, M_bind, bind.
  destruct (res (m s)) as [e'|a] eqn:Hr; simpl.
  - intros [= <-]. by eapply Hm.
  - apply Hk.
Qed.

Lemma raises_only_try_finally E m after :
  raises_only E m → raises_only E (try_finally m after).
Proof. intros Hm s e. apply Hm. Qed.

Lemma raises_only_try_except E E' m handler :
  raises_only E' m →
  (∀ e, E' e → match handler e with
               | Some k' => raises_only E k'
               | None => E e
               end) →
  raises_only E (try_except m handler).
Proof.
  intros Hm Hh s e. unfold try_except.
  destruct (res (m s)) as [e'|a] eqn:Hr; [|by rewrite Hr].
  specialize (Hh e' (Hm _ _ Hr)).
  destruct (handler e') as [k'|]; simpl.
  - apply Hh.
  - rewrite Hr. by intros [= <-].
Qed.

Lemma emits_only_ret Q (a : A) : emits_only Q (mret a : M A).
Proof. intros s. constructor. Qed.

Lemma emits_only_raise Q e : emits_only Q (raise e : M A).
Proof. intros s. constructor. Qed.

Lemma emits_only_bind Q m k :
  emits_only Q m → (∀ a, emits_only Q (k a)) → emits_only Q (m ≫= k).
Proof.
  intros Hm Hk s. unfold mbind, M_bind, bind.
  destruct (res (m s)) as [e'|a] eqn:Hr; simpl; [apply Hm|].
  apply Forall_app. split; [apply Hm|apply Hk].
Qed.

Lemma emits_only_try_finally Q m after :
  emits_only Q m → Forall Q after → emits_only Q (try_finally m after).
Proof. intros Hm Ha s. apply Forall_app. split; [apply Hm|done]. Qed.

Lemma emits_only_try_except Q m handler :
  emits_only Q m →
  (∀ e, match handler e with
        | Some k' => emits_only Q k'
        | None => True
        end) →
  emits_only Q (try_except m handler).
Proof.
  intros Hm Hh s. unfold try_except.
  destruct (res (m s)) as [e'|a] eqn:Hr; [|apply Hm].
  specialize (Hh e'). destruct (handler e') as [k'|]; simpl; [|apply Hm].
  apply Forall_app. split; [apply Hm|apply Hh].
Qed.

Context {X : Type}.
Implicit Types (f : State → X).

Lemma keeps_ret f (a : A) : keeps f (mret a : M A).
Proof. by intros s. Qed.

Lemma keeps_raise f e : keeps f (raise e : M A).
Proof. by intros s. Qed.

Lemma keeps_bind f m k :
  keeps f m → (∀ a, keeps f (k a)) → keeps f (m ≫= k).
Proof.
  intros Hm Hk s. unfold mbind, M_bind, bind.
  destruct (res (m s)) as [e'|a] eqn:Hr; simpl; [apply Hm|].
  rewrite Hk. apply Hm.
Qed.

Lemma keeps_try_finally f m after :
  keeps f m → keeps f (try_finally m after).
Proof. intros Hm s. apply Hm. Qed.

Lemma keeps_try_except f m handler :
  keeps f m →
  (∀ e, match handler e with
        | Some k' => keeps f k'
        | None => True
        end) →
  keeps f (try_except m handler).
Proof.
  intros Hm Hh s. unfold try_except.
  destruct (res (m s)) as [e'|a] eqn:Hr; [|apply Hm].
  specialize (Hh e'). destruct (handler e') as [k'|]; simpl; [|apply Hm].
  rewrite Hh. apply Hm.
Qed.
End Rules.

Lemma raises_only_for_each {A} E (l : list A) (body : A → M unit) :
  (∀ x, raises_only E (body x)) → raises_only E (for_each l body).
Proof.
  intros Hb. induction l as [|x l IH]; simpl.
  - apply (raises_only_ret (A:=unit)).
  - by apply raises_only_bind.
Qed.

Lemma emits_only_for_each {A} Q (l : list A) (body : A → M unit) :
  (∀ x, emits_only Q (body x)) → emits_only Q (for_each l body).
Proof.
  intros Hb. induction l as [|x l IH]; simpl.
  - apply (emits_only_ret (A:=unit)).
  - by apply emits_only_bind.
Qed.

Lemma keeps_for_each {A X} (f : State → X) (l : list A) (body : A → M unit) :
  (∀ x, keeps f (body x)) → keeps f (for_each l body).
Proof.
  intros Hb. induction l as [|x l IH]; simpl.
  - apply (keeps_ret (A:=unit)).
  - by apply keeps_bind.
Qed.

(** The primitive statements. *)

Lemma raises_only_emit E ev : raises_only E (emit ev : M unit).
Proof. by intros s e. Qed.

Lemma emits_only_emit (Q : event → Prop) ev : Q ev → emits_only Q (emit ev : M unit).
Proof. intros Hq s. by repeat constructor. Qed.

Lemma keeps_emit {X} (f : State → X) ev : keeps f (emit ev : M unit).
Proof. by intros s. Qed.

Lemma raises_only_db_call E ev (op : W → W * option string) :
  (∀ msg, E (Psycopg2Error msg)) → raises_only E (db_call ev op).
Proof.
  intros He s e. unfold db_call.
  destruct (op (world s)) as [w [msg|]]; simpl; [|done].
  by intros [= <-].
Qed.

Lemma emits_only_db_call (Q : event → Prop) ev (op : W → W * option string) :
  Q ev → emits_only Q (db_call ev op).
Proof.
  intros Hq s. unfold db_call.
  destruct (op (world s)) as [w reply]. by repeat constructor.
Qed.

Lemma keeps_failed_db_call ev (op : W → W * option string) : keeps failed_migrations (db_call ev op).
Proof. intros s. unfold db_call. by destruct (op (world s)). Qed.

Lemma keeps_missing_db_call ev (op : W → W * option string) : keeps missing_tables (db_call ev op).
Proof. intros s. unfold db_call. by destruct (op (world s)). Qed.

Lemma raises_only_fetchone E :
  (∀ msg, E (Psycopg2Error msg)) → raises_only E fetchone.
Proof.
  intros He s e. unfold fetchone.
  destruct (pg_fetchone (world s)) as [w [msg|b]]; simpl; [|done].
  by intros [= <-].
Qed.

Lemma emits_only_fetchone (Q : event → Prop) :
  Q FetchOne → emits_only Q fetchone.
Proof.
  intros Hq s. unfold fetchone.
  destruct (pg_fetchone (world s)) as [w reply]. by repeat constructor.
Qed.

Lemma keeps_failed_fetchone : keeps failed_migrations fetchone.
Proof. intros s. unfold fetchone. by destruct (pg_fetchone (world s)). Qed.

Lemma keeps_missing_fetchone : keeps missing_tables fetchone.
Proof. intros s. unfold fetchone. by destruct (pg_fetchone (world s)). Qed.

(** The lines the script prints before its summary are none of the
    two banners of the summary. *)

Lemma info_line_no_banner msg : ¬ summary_banner (info_line msg).
Proof. intros [Heq|Heq]; vm_compute in Heq; discriminate Heq. Qed.
Lemma error_line_no_banner msg : ¬ summary_banner (error_line msg).
Proof. intros [Heq|Heq]; vm_compute in Heq; discriminate Heq. Qed.
Lemma success_line_no_banner msg : ¬ summary_banner (success_line msg).
Proof. intros [Heq|Heq]; vm_compute in Heq; discriminate Heq. Qed.

Ltac unfold_statements :=
  unfold with_cursor, open_read, connect, cursor, execute, commit, close,
    log_error, log_success, log_info, log_warning, print, sys_exit.

Ltac rule :=
  lazymatch goal with
  | |- raises_only _ (_ ≫= _) => apply raises_only_bind; [|intros ?]
  | |- raises_only _ (mret _) => apply raises_only_ret
  | |- raises_only _ (ret _) => apply raises_only_ret
  | |- raises_only _ (raise _) => apply raises_only_raise; simpl
  | |- raises_only _ (try_finally _ _) => apply raises_only_try_finally
  | |- raises_only _ (for_each _ _) => apply raises_only_for_each; intros ?
  | |- raises_only _ (db_call _ _) => apply raises_only_db_call; intros ?; simpl
  | |- raises_only _ (emit _) => apply raises_only_emit
  | |- raises_only _ fetchone => apply raises_only_fetchone; intros ?; simpl
  | |- emits_only _ (_ ≫= _) => apply emits_only_bind; [|intros ?]
  | |- emits_only _ (mret _) => apply emits_only_ret
  | |- emits_only _ (ret _) => apply emits_only_ret
  | |- emits_only _ (raise _) => apply emits_only_raise
  | |- emits_only _ (try_finally _ _) =>
      apply emits_only_try_finally; [|repeat constructor]
  | |- emits_only _ (for_each _ _) => apply emits_only_for_each; intros ?
  | |- emits_only _ (db_call _ _) => apply emits_only_db_call; simpl
  | |- emits_only _ (emit _) => apply emits_only_emit; simpl
  | |- emits_only _ fetchone => apply emits_only_fetchone; simpl
  | |- keeps _ (_ ≫= _) => apply keeps_bind; [|intros ?]
  | |- keeps _ (mret _) => apply keeps_ret
  | |- keeps _ (ret _) => apply keeps_ret
  | |- keeps _ (raise _) => apply keeps_raise
  | |- keeps _ (try_finally _ _) => apply keeps_try_finally
  | |- keeps _ (for_each _ _) => apply keeps_for_each; intros ?
  | |- keeps failed_migrations (db_call _ _) => apply keeps_failed_db_call
  | |- keeps missing_tables (db_call _ _) => apply keeps_missing_db_call
  | |- keeps _ (emit _) => apply keeps_emit
  | |- keeps failed_migrations fetchone => apply keeps_failed_fetchone
  | |- keeps missing_tables fetchone => apply keeps_missing_fetchone
  | |- raises_only _ (missing_tables_append _) => by intros ? ?
  | |- raises_only _ (failed_migrations_append _) => by intros ? ?
  | |- emits_only _ (missing_tables_append _) => intros ?; constructor
  | |- emits_only _ (failed_migrations_append _) => intros ?; constructor
  | |- keeps failed_migrations (missing_tables_append _) => by intros ?
  | |- keeps missing_tables (failed_migrations_append _) => by intros ?
  | |- _ (match ?x with _ => _ end) => destruct x
  end.

Ltac rules :=
  unfold_statements;
  repeat rule;
  auto using info_line_no_banner, error_line_no_banner,
    success_line_no_banner.

Lemma migration_body_raises dsn filename :
  raises_only is_Exception (migration_body h dsn filename).
Proof. unfold migration_body. rules. Qed.

Lemma migration_body_talks_to dsn filename :
  emits_only (talks_to dsn) (migration_body h dsn filename).
Proof. unfold migration_body. rules. Qed.

Lemma migration_body_silent dsn filename :
  emits_only (no_banner) (migration_body h dsn filename).
Proof. unfold migration_body. rules. Qed.

Lemma migration_body_keeps_failed dsn filename :
  keeps failed_migrations (migration_body h dsn filename).
Proof. unfold migration_body. rules. Qed.

Lemma migration_body_keeps_missing dsn filename :
  keeps missing_tables (migration_body h dsn filename).
Proof. unfold migration_body. rules. Qed.

(** ** The migration loop *)

Lemma never_raises (m : M unit) (s : State) :
  raises_only never m → res (m s) = inr tt.
Proof.
  intros Hm. destruct (res (m s)) as [e|[]] eqn:Hr; [|done].
  destruct (Hm _ _ Hr).
Qed.

Lemma failed_migrations_append_run filename (s : State) :
  failed_migrations (st (failed_migrations_append filename s))
  = failed_migrations s ++ [filename].
Proof. done. Qed.

(** One turn of the loop whose body returns: nothing is recorded. *)
Lemma run_migration_returns dsn filename (s : State) :
  let body := migration_body h dsn filename s in
  res body = inr tt →
  run_migration h dsn filename s
  = {| st := st body;
       evs := Print (info_line ("Running migration: " +:+ filename)) :: evs body;
       res := inr tt |}.
Proof.
  intros body Hbody. unfold run_migration, log_info, print.
  erewrite bind_run_inr by reflexivity.
  unfold try_except. fold body. rewrite Hbody. simpl. by rewrite Hbody.
Qed.

(** One turn of the loop whose body raises: the error is printed, the
    file name is appended to [failed_migrations], and the turn ends as
    any other. *)
Lemma run_migration_catches dsn filename (s : State) e :
  let body := migration_body h dsn filename s in
  res body = inl e →
  ∃ msg,
    run_migration h dsn filename s
    = {| st := {| world := world (st body);
                  failed_migrations := failed_migrations s ++ [filename];
                  missing_tables := missing_tables s |};
         evs := Print (info_line ("Running migration: " +:+ filename))
                  :: evs body ++ [Print (error_line (filename +:+ msg))];
         res := inr tt |}.
Proof.
  intros body Hbody. unfold run_migration, log_info, print.
  erewrite bind_run_inr by reflexivity.
  unfold try_except. fold body. rewrite Hbody.
  pose proof (migration_body_raises dsn filename s e Hbody) as He.
  pose proof (migration_body_keeps_failed dsn filename s) as Hf.
  pose proof (migration_body_keeps_missing dsn filename s) as Hm.
  fold body in Hf, Hm.
  destruct e as [msg|cls msg|code]; [| |by destruct He]; simpl.
  - exists (" failed: " +:+ msg +:+ nl). rewrite Hf, Hm. done.
  - exists (" failed with unexpected error: " +:+ msg +:+ nl).
    rewrite Hf, Hm. done.
Qed.

Lemma run_migration_res dsn filename (s : State) :
  res (run_migration h dsn filename s) = inr tt.
Proof.
  destruct (res (migration_body h dsn filename s)) as [e|[]] eqn:Hbody.
  - by destruct (run_migration_catches dsn filename s e Hbody) as [msg ->].
  - by rewrite run_migration_returns.
Qed.

Lemma run_migration_keeps_missing dsn filename :
  keeps missing_tables (run_migration h dsn filename).
Proof.
  intros s.
  destruct (res (migration_body h dsn filename s)) as [e|[]] eqn:Hbody.
  - by destruct (run_migration_catches dsn filename s e Hbody) as [msg ->].
  - rewrite run_migration_returns by done. apply migration_body_keeps_missing.
Qed.

Lemma run_migration_talks_to dsn filename :
  emits_only (talks_to dsn) (run_migration h dsn filename).
Proof.
  intros s. pose proof (migration_body_talks_to dsn filename s) as Hb.
  destruct (res (migration_body h dsn filename s)) as [e|[]] eqn:Hbody.
  - destruct (run_migration_catches dsn filename s e Hbody) as [msg ->].
    simpl. constructor; [done|]. apply Forall_app. split; [done|].
    by repeat constructor.
  - rewrite run_migration_returns by done. by constructor.
Qed.

Lemma run_migration_silent dsn filename :
  emits_only (no_banner) (run_migration h dsn filename).
Proof.
  intros s. pose proof (migration_body_silent dsn filename s) as Hb.
  destruct (res (migration_body h dsn filename s)) as [e|[]] eqn:Hbody.
  - destruct (run_migration_catches dsn filename s e Hbody) as [msg ->].
    simpl. constructor; [apply info_line_no_banner|].
    apply Forall_app. split; [done|].
    repeat constructor. apply error_line_no_banner.
  - rewrite run_migration_returns by done.
    constructor; [apply info_line_no_banner|done].
Qed.

Lemma omap_none {A B} (pick : A → option B) (l : list A) :
  Forall (λ x, pick x = None) l → omap pick l = [].
Proof. induction 1 as [|x l Hx _ IH]; simpl; [done|]. by rewrite Hx. Qed.

(** The files a turn of the loop tries to open: the migration file. *)
Lemma migration_body_opened dsn filename (s : State) :
  opened (migration_body h dsn filename s)
  = [migration_dir +:+ "/" +:+ filename].
Proof.
  unfold migration_body, open_read.
  rewrite bind_assoc. erewrite bind_run_inr by reflexivity.
  unfold opened. simpl. f_equal.
  apply omap_none.
  match goal with
  | |- Forall ?Q (evs (?m _)) => cut (emits_only Q m); [by intros Hm|]
  end.
  rules.
Qed.

Lemma run_migration_opened dsn filename (s : State) :
  opened (run_migration h dsn filename s)
  = [migration_dir +:+ "/" +:+ filename].
Proof.
  pose proof (migration_body_opened dsn filename s) as Hb.
  destruct (res (migration_body h dsn filename s)) as [e|[]] eqn:Hbody.
  - destruct (run_migration_catches dsn filename s e Hbody) as [msg ->].
    unfold opened in *. simpl. rewrite omap_app, Hb. done.
  - rewrite run_migration_returns by done. done.
Qed.

(** The loop never raises. *)
Lemma loop_res dsn files (s : State) :
  res (for_each files (run_migration h dsn) s) = inr tt.
Proof.
  revert s. induction files as [|f files IH]; intros s; simpl; [done|].
  erewrite bind_inr by apply run_migration_res. simpl. apply IH.
Qed.

(** Splitting the loop at a file. *)
Lemma loop_app dsn before after (s : State) :
  let r1 := for_each before (run_migration h dsn) s in
  let r2 := for_each after (run_migration h dsn) (st r1) in
  for_each (before ++ after) (run_migration h dsn) s
  = {| st := st r2; evs := evs r1 ++ evs r2; res := inr tt |}.
Proof.
  intros r1 r2. rewrite for_each_app.
  erewrite bind_inr by apply loop_res.
  by rewrite (loop_res dsn after).
Qed.

Lemma loop_cons dsn f files (s : State) :
  let r1 := run_migration h dsn f s in
  let r2 := for_each files (run_migration h dsn) (st r1) in
  for_each (f :: files) (run_migration h dsn) s
  = {| st := st r2; evs := evs r1 ++ evs r2; res := inr tt |}.
Proof.
  intros r1 r2. simpl.
  erewrite bind_inr by apply run_migration_res.
  by rewrite (loop_res dsn files).
Qed.

(** What the loop adds to [failed_migrations] is a subsequence of the
    files it went through. *)
Lemma loop_failed_sublist dsn files (s : State) :
  ∃ failed,
    failed_migrations (st (for_each files (run_migration h dsn) s))
    = failed_migrations s ++ failed
    ∧ failed `sublist_of` files.
Proof.
  revert s. induction files as [|f files IH]; intros s.
  - exists []. simpl. by rewrite (right_id_L [] (++)).
  - rewrite loop_cons. cbv zeta. cbn [st].
    destruct (IH (st (run_migration h dsn f s))) as (failed & -> & Hsub).
    destruct (res (migration_body h dsn f s)) as [e|[]] eqn:Hbody.
    + destruct (run_migration_catches dsn f s e Hbody) as [msg ->]. simpl.
      exists (f :: failed). rewrite <-(assoc_L (++)). split; [done|].
      by apply sublist_skip.
    + rewrite run_migration_returns by done. simpl.
      rewrite migration_body_keeps_failed.
      exists failed. split; [done|]. by apply sublist_cons.
Qed.

Lemma loop_opened dsn files (s : State) :
  opened (for_each files (run_migration h dsn) s)
  = (λ f, migration_dir +:+ "/" +:+ f) <$> files.
Proof.
  revert s. induction files as [|f files IH]; intros s; [done|].
  rewrite loop_cons. pose proof (run_migration_opened dsn f s) as Hf.
  unfold opened in *. cbv zeta. cbn [evs].
  by rewrite omap_app, IH, Hf.
Qed.

Lemma loop_talks_to dsn files :
  emits_only (talks_to dsn) (for_each files (run_migration h dsn)).
Proof. apply emits_only_for_each. intros f. apply run_migration_talks_to. Qed.

Lemma loop_silent dsn files :
  emits_only (no_banner) (for_each files (run_migration h dsn)).
Proof. apply emits_only_for_each. intros f. apply run_migration_silent. Qed.

Lemma loop_keeps_missing dsn files :
  keeps missing_tables (for_each files (run_migration h dsn)).
Proof. apply keeps_for_each. intros f. apply run_migration_keeps_missing. Qed.

Lemma run_migrations_run dsn files (s : State) :
  let r := for_each files (run_migration h dsn) (with_failed s []) in
  run_migrations h dsn files s
  = {| st := st r; evs := evs r; res := inr tt |}.
Proof.
  intros r. unfold run_migrations.
  erewrite bind_run_inr by reflexivity. simpl.
  by rewrite (loop_res dsn files).
Qed.

(** ** The verification *)

Lemma check_table_absent table (s : State) w1 w2 :
  pg_execute exists_query (Some [table]) (world s) = (w1, None) →
  pg_fetchone w1 = (w2, inr false) →
  check_table table s
  = {| st := {| world := w2;
                failed_migrations := failed_migrations s;
                missing_tables := missing_tables s ++ [table] |};
       evs := [ Execute exists_query (Some [table]); FetchOne;
                Print (error_line ("Table '" +:+ table +:+ "' not found")) ];
       res := inr tt |}.
Proof.
  intros He Hf. unfold check_table, execute, fetchone, db_call, mbind, M_bind, bind.
  simpl. rewrite He. simpl. rewrite Hf. simpl. done.
Qed.

Lemma check_table_present table (s : State) w1 w2 :
  pg_execute exists_query (Some [table]) (world s) = (w1, None) →
  pg_fetchone w1 = (w2, inr true) →
  check_table table s
  = {| st := set_world s w2;
       evs := [ Execute exists_query (Some [table]); FetchOne;
                Print (success_line ("Table '" +:+ table +:+ "' exists")) ];
       res := inr tt |}.
Proof.
  intros He Hf. unfold check_table, execute, fetchone, db_call, mbind, M_bind, bind.
  simpl. rewrite He. simpl. rewrite Hf. simpl. done.
Qed.

(** When the catalog answers every query, the inner loop returns and
    appends to [missing_tables] the tables reported absent. *)
Lemma check_tables_answers tables answers (s : State) :
  catalog_answers tables (world s) = Some answers →
  let r := for_each tables check_table s in
  res r = inr tt
  ∧ missing_tables (st r) = missing_tables s ++ absent tables answers
  ∧ failed_migrations (st r) = failed_migrations s
  ∧ length answers = length tables.
Proof.
  revert answers s. induction tables as [|table tables IH]; intros answers s.
  - intros [= <-]. cbn. by rewrite app_nil_r.
  - simpl.
    destruct (pg_execute exists_query (Some [table]) (world s))
      as [w1 [msg|]] eqn:He; [done|].
    destruct (pg_fetchone w1) as [w2 [msg|answer]] eqn:Hf; [done|].
    destruct (catalog_answers tables w2) as [answers'|] eqn:Hrest; [|done].
    intros [= <-].
    destruct answer.
    + erewrite bind_run_inr by by eapply check_table_present.
      cbn [st evs res].
      destruct (IH answers' (set_world s w2) Hrest) as (-> & -> & -> & Hlen).
      simpl. by rewrite Hlen.
    + erewrite bind_run_inr by by eapply check_table_absent.
      cbn [st evs res].
      match goal with |- context [for_each tables check_table ?s'] =>
        destruct (IH answers' s' Hrest) as (-> & -> & -> & Hlen) end.
      simpl. by rewrite <-(assoc_L (++)), Hlen.
Qed.

Lemma verification_body_raises dsn :
  raises_only is_psycopg2_Error (verification_body dsn).
Proof. unfold verification_body, check_table. rules. Qed.

Lemma verification_body_talks_to dsn :
  emits_only (talks_to dsn) (verification_body dsn).
Proof. unfold verification_body, check_table. rules. Qed.

Lemma verification_body_silent dsn :
  emits_only (no_banner) (verification_body dsn).
Proof. unfold verification_body, check_table. rules. Qed.

Lemma verification_body_keeps_failed dsn :
  keeps failed_migrations (verification_body dsn).
Proof.
  unfold verification_body, check_table. rules.
Qed.

(** The verification step, whatever the database does: it returns,
    and its events are those of its body between two prints, with the
    error line when the body raised. *)
Lemma verify_tables_run dsn (s : State) :
  let body := verification_body dsn (with_missing s []) in
  ∃ caught,
    verify_tables dsn s
    = {| st := st body;
         evs := Print verifying :: evs body ++ caught ++ [Print ""];
         res := inr tt |}
    ∧ match res body with
      | inr _ => caught = []
      | inl e => ∃ msg, e = Psycopg2Error msg
                   ∧ caught = [Print (error_line ("Error checking tables: " +:+ msg))]
      end.
Proof.
  intros body. unfold verify_tables.
  erewrite bind_run_inr by reflexivity.
  erewrite bind_run_inr by reflexivity.
  unfold try_except, mbind, M_bind, bind. fold (with_missing s []). fold body.
  destruct (res body) as [e|[]] eqn:Hbody.
  - pose proof (verification_body_raises dsn _ _ Hbody) as He.
    destruct e as [msg| |]; [|done..]. simpl.
    exists [Print (error_line ("Error checking tables: " +:+ msg))].
    split; [|by eauto]. by rewrite <-(assoc_L (++)).
  - simpl. rewrite Hbody. simpl. by exists [].
Qed.

Lemma verify_tables_res dsn (s : State) : res (verify_tables dsn s) = inr tt.
Proof. by destruct (verify_tables_run dsn s) as (caught & -> & _). Qed.

Lemma verify_tables_keeps_failed dsn : keeps failed_migrations (verify_tables dsn).
Proof.
  intros s. destruct (verify_tables_run dsn s) as (caught & -> & _).
  apply (verification_body_keeps_failed dsn (with_missing s [])).
Qed.

Lemma verifying_no_banner : ¬ summary_banner verifying.
Proof. intros [Heq|Heq]; vm_compute in Heq; discriminate Heq. Qed.

Lemma banner_no_banner : ¬ summary_banner banner.
Proof. intros [Heq|Heq]; vm_compute in Heq; discriminate Heq. Qed.

Lemma verify_tables_caught dsn (s : State) caught :
  match res (verification_body dsn (with_missing s [])) with
  | inr _ => caught = []
  | inl e => ∃ msg, e = Psycopg2Error msg
               ∧ caught = [Print (error_line ("Error checking tables: " +:+ msg))]
  end →
  ∃ msg, caught = [] ∨ caught = [Print (error_line msg)].
Proof.
  destruct (res _) as [e|]; [|by exists ""; left].
  intros (msg & _ & ->). eexists. by right.
Qed.

Lemma verify_tables_talks_to dsn : emits_only (talks_to dsn) (verify_tables dsn).
Proof.
  intros s. destruct (verify_tables_run dsn s) as (caught & -> & Hc).
  apply verify_tables_caught in Hc as [msg Hc]. simpl.
  constructor; [done|]. rewrite !Forall_app. split_and!.
  - apply verification_body_talks_to.
  - destruct Hc as [-> | ->]; by repeat constructor.
  - by repeat constructor.
Qed.

Lemma empty_no_banner : ¬ summary_banner "".
Proof. intros [Heq|Heq]; vm_compute in Heq; discriminate Heq. Qed.

Lemma verify_tables_silent dsn :
  emits_only no_banner (verify_tables dsn).
Proof.
  intros s. destruct (verify_tables_run dsn s) as (caught & -> & Hc).
  apply verify_tables_caught in Hc as [msg Hc]. simpl.
  constructor; [apply verifying_no_banner|].
  rewrite !Forall_app. split_and!.
  - apply verification_body_silent.
  - destruct Hc as [-> | ->]; [constructor|].
    constructor; [apply error_line_no_banner|constructor].
  - constructor; [apply empty_no_banner|constructor].
Qed.

(** The verification always begins by opening its connection. *)
Lemma verify_tables_starts dsn (s : State) :
  ∃ rest, evs (verify_tables dsn s) = Print verifying :: Connect dsn :: rest.
Proof.
  destruct (verify_tables_run dsn s) as (caught & -> & _). simpl.
  unfold verification_body, connect, db_call, mbind, M_bind, bind. simpl.
  destruct (pg_connect dsn (world s)) as [w1 [msg|]]; simpl; eauto.
Qed.

(** When the database answers every query of the verification,
    [missing_tables] ends as the tables reported absent. *)
Lemma verify_tables_answers dsn (s : State) answers :
  verification_answers dsn (world s) = Some answers →
  missing_tables (st (verify_tables dsn s)) = absent tables_to_check answers
  ∧ length answers = length tables_to_check.
Proof.
  unfold verification_answers. intros Hans.
  destruct (verify_tables_run dsn s) as (caught & -> & _). simpl.
  destruct (pg_connect dsn (world s)) as [w1 [msg|]] eqn:Hc; [done|].
  destruct (pg_cursor w1) as [w2 [msg|]] eqn:Hcur; [done|].
  unfold verification_body.
  erewrite bind_run_inr; last first.
  { unfold connect, db_call. simpl. rewrite Hc. reflexivity. }
  cbn [st evs res].
  set (s1 := set_world (with_missing s []) w1).
  assert (res (with_cursor (for_each tables_to_check check_table) s1) = inr tt
          ∧ missing_tables (st (with_cursor (for_each tables_to_check check_table) s1))
            = absent tables_to_check answers
          ∧ length answers = length tables_to_check) as (Hres & Hmiss & Hlen).
  { unfold with_cursor.
    erewrite bind_run_inr; last first.
    { unfold cursor, db_call. simpl. rewrite Hcur. reflexivity. }
    unfold try_finally. cbn [st evs res].
    match goal with |- context [for_each _ _ ?s'] =>
      destruct (check_tables_answers tables_to_check answers s' Hans)
        as (Hr & Hm & _ & Hl) end.
    rewrite Hr, Hm. done. }
  split; [|done].
  erewrite bind_inr by done. cbn [st]. rewrite <-Hmiss.
  apply keeps_missing_db_call.
Qed.

(** ** The summary and the whole script *)

Lemma for_each_print (lines : list string) (s : State) :
  for_each lines print s
  = {| st := s; evs := Print <$> lines; res := inr tt |}.
Proof.
  induction lines as [|line lines IH]; simpl; [done|].
  erewrite bind_run_inr by reflexivity. by rewrite IH.
Qed.

Lemma final_summary_run (s : State) :
  final_summary s
  = {| st := s;
       evs := Print <$> summary_lines (missing_tables s) (failed_migrations s);
       res := inr tt |}.
Proof.
  unfold final_summary.
  erewrite bind_run_inr by reflexivity.
  erewrite bind_run_inr by reflexivity.
  by rewrite for_each_print.
Qed.

Lemma main_exits (s : State) e :
  let r1 := preflight urlparse_hostname h s in
  res r1 = inl e →
  main urlparse_hostname h s = {| st := st r1; evs := evs r1; res := inl e |}.
Proof. intros r1 Hr. unfold main. by erewrite bind_inl. Qed.

(** A run that passes the preflight goes through the loop, the
    verification and the summary, and returns. *)
Lemma main_returns (s : State) dsn files :
  let r1 := preflight urlparse_hostname h s in
  let r2 := for_each files (run_migration h dsn) (with_failed (st r1) []) in
  let r3 := verify_tables dsn (st r2) in
  res r1 = inr (dsn, files) →
  main urlparse_hostname h s
  = {| st := st r3;
       evs := evs r1 ++ evs r2 ++ evs r3
              ++ (Print <$> summary_lines (missing_tables (st r3))
                                          (failed_migrations (st r3)));
       res := inr tt |}.
Proof.
  intros r1 r2 r3 Hr. unfold main.
  erewrite bind_inr by done. cbv beta iota.
  erewrite bind_run_inr by apply run_migrations_run. fold r1 r2.
  erewrite bind_inr by apply verify_tables_res. fold r3.
  rewrite final_summary_run. done.
Qed.

(** ** The claims about the preconditions and the exit status *)

Lemma run_exits (w : W) e :
  let pre := preflight urlparse_hostname h (initial w) in
  res pre = inl e →
  run urlparse_hostname h w = {| st := st pre; evs := evs pre; res := inl e |}.
Proof. apply main_exits. Qed.

Lemma fatal_or_hold (w : W) :
  fatal_precondition urlparse_hostname h w
  ∨ preconditions_hold urlparse_hostname h w.
Proof.
  destruct (preflight_outcome (initial w)) as (_ & _ & _ & [Hexit|Hok]).
  - left. apply Hexit.
  - right. destruct Hok as (ref & key & entries & _ & Hok & _). apply Hok.
Qed.

Lemma run_fatal (w : W) :
  fatal_precondition urlparse_hostname h w →
  let r := run urlparse_hostname h w in
  exit_status r = 1
  ∧ res r = inl (SystemExit 1)
  ∧ (∃ msg, error_line msg ∈ printed r)
  ∧ (env_local_exists h = false →
     evs r = [ Print banner;
               Print (error_line ".env.local file not found!");
               Print "Please create .env.local with your Supabase credentials" ]
     ∧ connections r = []).
Proof.
  intros Hfatal r.
  destruct (preflight_outcome (initial w)) as (_ & _ & _ & [Hexit|Hok]).
  - destruct Hexit as (Hres & _ & msg & Hmsg).
    assert (r = {| st := st (preflight urlparse_hostname h (initial w));
                   evs := evs (preflight urlparse_hostname h (initial w));
                   res := inl (SystemExit 1) |}) as Hr
      by by apply run_exits.
    split_and!.
    + unfold exit_status. by rewrite Hr.
    + by rewrite Hr.
    + exists msg. by rewrite Hr.
    + intros Henv. rewrite Hr. cbn [evs connections].
      by rewrite preflight_no_env_file.
  - destruct Hok as (ref & key & entries & _ & Hok & _).
    by destruct (preconditions_exclusive w).
Qed.

(** C6: each fatal precondition failure (no environment file, a
    required variable missing, a URL that cannot be parsed, a failed
    connectivity probe, no migration directory, no SQL file) ends the
    run through [sys.exit(1)], with exit status 1, after an error line
    was printed; when the environment file is missing the run prints
    three lines and stops before any connection is attempted. *)
Theorem fatal_precondition_exits (w : W) :
  fatal_precondition urlparse_hostname h w →
  let r := run urlparse_hostname h w in
  exit_status r = 1
  ∧ res r = inl (SystemExit 1)
  ∧ (∃ msg, error_line msg ∈ printed r)
  ∧ (env_local_exists h = false →
     evs r = [ Print banner;
               Print (error_line ".env.local file not found!");
               Print "Please create .env.local with your Supabase credentials" ]
     ∧ connections r = []).
Proof. apply run_fatal. Qed.

(** C3: a run that passes every fatal precondition ends with exit
    status 0, whatever the migrations and the verification did; the
    exit status is 1 exactly when a fatal precondition fails, and it is
    never anything else. *)
Theorem exit_status_by_preconditions (w : W) :
  let r := run urlparse_hostname h w in
  (exit_status r = 0 ↔ preconditions_hold urlparse_hostname h w)
  ∧ (exit_status r = 1 ↔ fatal_precondition urlparse_hostname h w)
  ∧ (exit_status r = 0 ∨ exit_status r = 1).
Proof.
  intros r.
  assert (preconditions_hold urlparse_hostname h w → exit_status r = 0) as Hzero.
  { intros Hhold.
    destruct (preflight_outcome (initial w)) as (_ & _ & _ & [Hexit|Hok]).
    - destruct Hexit as (_ & Hfatal & _). by destruct (preconditions_exclusive w).
    - destruct Hok as (ref & key & entries & Hres & _).
      subst r. unfold run, exit_status. by erewrite main_returns. }
  assert (fatal_precondition urlparse_hostname h w → exit_status r = 1) as Hone.
  { intros Hfatal. by apply run_fatal. }
  destruct (fatal_or_hold w) as [Hfatal|Hhold].
  - specialize (Hone Hfatal). split_and!; [|done|by right].
    split; [rewrite Hone; done|].
    intros Hhold. by destruct (preconditions_exclusive w).
  - specialize (Hzero Hhold). split_and!; [done| |by left].
    split; [rewrite Hzero; done|].
    intros Hfatal. by destruct (preconditions_exclusive w).
Qed.

(** ** The claims about the project identifier and the connections *)

Lemma elem_of_connections {A} (r : Out A) d :
  d ∈ connections r ↔ Connect d ∈ evs r.
Proof.
  unfold connections. rewrite list_elem_of_omap. split.
  - intros ([] & Hin & Heq); simplify_eq. done.
  - intros Hin. by exists (Connect d).
Qed.

Lemma elem_of_printed {A} (r : Out A) line :
  line ∈ printed r ↔ Print line ∈ evs r.
Proof.
  unfold printed. rewrite list_elem_of_omap. split.
  - intros ([] & Hin & Heq); simplify_eq. done.
  - intros Hin. by exists (Print line).
Qed.

Lemma talks_to_connections {A} (m : M A) dsn (s : State) d :
  emits_only (talks_to dsn) m → d ∈ connections (m s) → d = dsn.
Proof.
  intros Hm Hd%elem_of_connections.
  specialize (Hm s). rewrite Forall_forall in Hm. apply (Hm _ Hd).
Qed.

(** Every connection of a run is opened with the derived parameters. *)
Lemma run_connections (w : W) d :
  d ∈ connections (run urlparse_hostname h w) →
  derived_params urlparse_hostname h d.
Proof.
  unfold run.
  destruct (preflight_outcome (initial w)) as (Hpre & _ & _ & [Hexit|Hok]).
  - destruct Hexit as (Hres & _). erewrite main_exits by done. apply Hpre.
  - destruct Hok as (ref & key & entries & Hres & _ & Hdsn & _).
    erewrite main_returns by done.
    rewrite elem_of_connections. cbn [evs].
    rewrite !elem_of_app. intros [Hd|[Hd|[Hd|Hd]]].
    + by apply Hpre, elem_of_connections.
    + apply elem_of_connections in Hd.
      by rewrite (talks_to_connections _ _ _ _ (loop_talks_to _ _) Hd).
    + apply elem_of_connections in Hd.
      by rewrite (talks_to_connections _ _ _ _ (verify_tables_talks_to _) Hd).
    + apply list_elem_of_fmap in Hd as (line & [=] & _).
Qed.

(** C8: every connection the script opens, the probe, those of the
    migration files and that of the verification, is opened with the
    same parameters, derived from the environment: the fixed pooler host,
    port 6543, database [postgres], user [postgres.] followed by the
    project identifier, the service-role key as password, and
    [sslmode=require]. *)
Theorem connections_use_derived_parameters (w : W) (d : ConnParams) :
  d ∈ connections (run urlparse_hostname h w) →
  ∃ url key ref,
    environ h URL_VAR = Some url
    ∧ environ h KEY_VAR = Some key
    ∧ project_ref_of urlparse_hostname url = inr ref
    ∧ d = {| host := "aws-0-us-west-1.pooler.supabase.com";
             port := 6543;
             database := "postgres";
             user := "postgres." +:+ ref;
             password := key;
             sslmode := "require" |}
    ∧ ∀ d', d' ∈ connections (run urlparse_hostname h w) → d' = d.
Proof.
  intros Hd. destruct (run_connections w d Hd) as (url & key & ref & Hu & Hk & Hr & ->).
  exists url, key, ref. split_and!; [done..|].
  intros d' Hd'.
  destruct (run_connections w d' Hd') as (url' & key' & ref' & Hu' & Hk' & Hr' & ->).
  rewrite Hu in Hu'. rewrite Hk in Hk'. simplify_eq.
  rewrite Hr in Hr'. by simplify_eq.
Qed.

Section Configured.
Context (w : W) (url key : string).
Hypothesis Henv : env_local_exists h = true.
Hypothesis Hurl : environ h URL_VAR = Some url.
Hypothesis Hurl_ne : url ≠ "".
Hypothesis Hkey : environ h KEY_VAR = Some key.
Hypothesis Hkey_ne : key ≠ "".

(** A run whose URL cannot be turned into a project identifier. *)
Lemma run_unparseable_url e :
  project_ref_of urlparse_hostname url = inl e →
  run urlparse_hostname h w
  = {| st := initial w;
       evs := [ Print banner;
                Print (error_line "Could not parse Supabase URL");
                Print "URL should be in format: https://yourproject.supabase.co" ];
       res := inl (SystemExit 1) |}.
Proof.
  intros Href. unfold run.
  erewrite main_exits; erewrite preflight_unparseable_url; done.
Qed.

(** A run whose URL has the project identifier [ref] prints it
    before it goes on. *)
Lemma run_project_ref ref :
  project_ref_of urlparse_hostname url = inr ref →
  ∃ rest,
    evs (run urlparse_hostname h w)
    = Print banner
        :: Print (info_line ("Project Reference: " +:+ ref))
        :: Print (info_line ("Supabase URL: " +:+ url +:+ nl))
        :: rest.
Proof.
  intros Href.
  assert (∃ rest, evs (preflight urlparse_hostname h (initial w))
            = Print banner
                :: Print (info_line ("Project Reference: " +:+ ref))
                :: Print (info_line ("Supabase URL: " +:+ url +:+ nl))
                :: rest) as [rest Hpre].
  { unfold preflight.
    erewrite bind_run_inr by by apply load_configuration_returns.
    cbv beta iota.
    erewrite bind_run_inr by by eapply extract_project_ref_returns.
    cbn [evs]. eauto. }
  unfold run.
  destruct (res (preflight urlparse_hostname h (initial w)))
    as [e|[dsn files]] eqn:Hres.
  - erewrite main_exits by done. cbn [evs]. eauto.
  - erewrite main_returns by done. cbn [evs]. rewrite Hpre. simpl. eauto.
Qed.
End Configured.

(** C10: when both variables are set and the URL parses to no
    hostname, taking the first label raises [AttributeError] inside the
    [try], the bare [except] catches it, and the run ends through
    [sys.exit(1)] having printed three lines and attempted no
    connection. *)
Theorem no_hostname_exits (w : W) (url key : string) :
  env_local_exists h = true →
  environ h URL_VAR = Some url → url ≠ "" →
  environ h KEY_VAR = Some key → key ≠ "" →
  urlparse_hostname url = UrlHostname None →
  let r := run urlparse_hostname h w in
  project_ref_of urlparse_hostname url
  = inl (PyException "AttributeError"
           "'NoneType' object has no attribute 'split'")
  ∧ res r = inl (SystemExit 1)
  ∧ exit_status r = 1
  ∧ evs r = [ Print banner;
              Print (error_line "Could not parse Supabase URL");
              Print "URL should be in format: https://yourproject.supabase.co" ]
  ∧ connections r = []
  ∧ world (st r) = w.
Proof.
  intros Henv Hurl ? Hkey ? Hparse r.
  assert (project_ref_of urlparse_hostname url
          = inl (PyException "AttributeError"
                   "'NoneType' object has no attribute 'split'")) as Href.
  { unfold project_ref_of. by rewrite Hparse. }
  subst r. unfold exit_status.
  by erewrite run_unparseable_url.
Qed.

(** C7: when both variables are set and the URL parses to a hostname,
    the project identifier is the first label of that hostname, what
    stands before its first dot: it is printed as the project reference,
    and it is what follows [postgres.] in the user of every
    connection. *)
Theorem project_ref_is_first_label (w : W) (url key hostname : string) :
  env_local_exists h = true →
  environ h URL_VAR = Some url → url ≠ "" →
  environ h KEY_VAR = Some key → key ≠ "" →
  urlparse_hostname url = UrlHostname (Some hostname) →
  let r := run urlparse_hostname h w in
  let label := first_label hostname in
  project_ref_of urlparse_hostname url = inr label
  ∧ Urllib.contains "." label = false
  ∧ (hostname = label ∨ ∃ rest, hostname = label +:+ "." +:+ rest)
  ∧ Print (info_line ("Project Reference: " +:+ label)) ∈ evs r
  ∧ ∀ d, d ∈ connections r →
         user d = "postgres." +:+ label ∧ password d = key.
Proof.
  intros Henv Hurl ? Hkey ? Hparse r label.
  assert (project_ref_of urlparse_hostname url = inr label) as Href.
  { unfold project_ref_of. rewrite Hparse.
    by destruct (split_char_first_label hostname) as [rest ->]. }
  split_and!.
  - done.
  - apply first_label_no_dot.
  - apply first_label_prefix.
  - destruct (run_project_ref w url key Henv Hurl ltac:(done) Hkey ltac:(done)
                label Href) as [rest Hevs].
    subst r. rewrite Hevs. apply list_elem_of_further, list_elem_of_here.
  - intros d Hd.
    destruct (run_connections w d Hd) as (url' & key' & ref' & Hu & Hk & Hr & ->).
    rewrite Hurl in Hu. rewrite Hkey in Hk. simplify_eq.
    rewrite Href in Hr. by simplify_eq.
Qed.

(** ** What the phases print and open *)

Lemma plain_no_banner (line : string) :
  match line with
  | String a _ => a ≠ "027"%char
  | EmptyString => True
  end →
  ¬ summary_banner line.
Proof.
  intros Hline [-> | ->]; vm_compute in Hline; by apply Hline.
Qed.

Ltac phase_rules :=
  unfold_statements;
  repeat first
    [ rule
    | apply emits_only_try_except; [|intros []; simpl]
    | match goal with
      | |- emits_only _ (let x := _ in _) => cbv zeta
      | |- emits_only _ (if ?b then _ else _) => destruct b
      | |- emits_only _ ((λ x, _) _) => cbv beta
      | |- emits_only _ (sys_exit _) => apply emits_only_raise
      | |- emits_only _ (log_error _) => unfold log_error, print
      | |- emits_only _ (log_info _) => unfold log_info, print
      | |- emits_only _ (log_success _) => unfold log_success, print
      | |- emits_only _ (print _) => unfold print
      | |- emits_only _ (connect _) => unfold connect
      | |- emits_only _ close => unfold close
      end ];
  auto using info_line_no_banner, error_line_no_banner,
    success_line_no_banner, banner_no_banner;
  try (apply plain_no_banner; vm_compute; congruence).

Lemma preflight_silent :
  emits_only no_banner (preflight urlparse_hostname h).
Proof.
  unfold preflight, load_configuration, extract_project_ref,
    test_connection, get_migration_files.
  phase_rules.
Qed.

Lemma preflight_opens_nothing :
  emits_only no_open (preflight urlparse_hostname h).
Proof.
  unfold preflight, load_configuration, extract_project_ref,
    test_connection, get_migration_files.
  phase_rules.
Qed.

Lemma verify_tables_opens_nothing dsn :
  emits_only no_open (verify_tables dsn).
Proof.
  intros s. destruct (verify_tables_run dsn s) as (caught & -> & Hc).
  apply verify_tables_caught in Hc as [msg Hc]. simpl.
  constructor; [done|]. rewrite !Forall_app. split_and!.
  - revert s. intros s.
    cut (emits_only no_open (verification_body dsn)); [by intros Hm|].
    unfold verification_body, check_table. phase_rules.
  - destruct Hc as [-> | ->]; by repeat constructor.
  - by repeat constructor.
Qed.

Lemma opened_nil {A} (m : M A) (s : State) :
  emits_only no_open m → opened (m s) = [].
Proof.
  intros Hm. apply omap_none. eapply Forall_impl; [apply Hm|].
  by intros [].
Qed.

Lemma printed_no_banner {A} (m : M A) (s : State) line :
  emits_only no_banner m → summary_banner line → line ∉ printed (m s).
Proof.
  intros Hm Hline Hin%elem_of_printed.
  specialize (Hm s). rewrite Forall_forall in Hm. by apply (Hm _ Hin).
Qed.

(** ** The claims about the migration loop *)

Lemma preflight_holds (w : W) :
  preconditions_hold urlparse_hostname h w →
  ∃ ref key entries,
    res (preflight urlparse_hostname h (initial w))
    = inr (connection_params ref key, sorted_sql_files entries)
    ∧ migrations h = Some entries
    ∧ derived_params urlparse_hostname h (connection_params ref key).
Proof.
  intros Hhold.
  destruct (preflight_outcome (initial w)) as (_ & _ & _ & [Hexit|Hok]).
  - destruct Hexit as (_ & Hfatal & _). by destruct (preconditions_exclusive w).
  - destruct Hok as (ref & key & entries & Hres & _ & Hdsn & Hdir). eauto 10.
Qed.

Lemma preflight_files (s : State) dsn files :
  res (preflight urlparse_hostname h s) = inr (dsn, files) →
  ∃ entries, migrations h = Some entries ∧ files = sorted_sql_files entries.
Proof.
  intros Hres.
  destruct (preflight_outcome s) as (_ & _ & _ & [Hexit|Hok]).
  - destruct Hexit as (Hres' & _). congruence.
  - destruct Hok as (ref & key & entries & Hres' & _ & _ & Hdir).
    rewrite Hres in Hres'. simplify_eq. eauto.
Qed.

(** The files a run that passes the preflight opens: the migration
    files, in the order of the list. *)
Lemma run_opened (w : W) dsn files :
  res (preflight urlparse_hostname h (initial w)) = inr (dsn, files) →
  opened (run urlparse_hostname h w)
  = (λ f, migration_dir +:+ "/" +:+ f) <$> files.
Proof.
  intros Hres. unfold run. erewrite main_returns by done.
  unfold opened. cbn [evs]. rewrite !omap_app.
  fold (opened (preflight urlparse_hostname h (initial w))).
  rewrite (opened_nil _ _ preflight_opens_nothing).
  match goal with
  | |- context [omap _ (evs (for_each files _ ?s))] =>
      fold (opened (for_each files (run_migration h dsn) s));
      rewrite (loop_opened dsn files s)
  end.
  match goal with
  | |- context [omap _ (evs (verify_tables dsn ?s))] =>
      fold (opened (verify_tables dsn s));
      rewrite (opened_nil _ s (verify_tables_opens_nothing dsn))
  end.
  rewrite omap_none; [by rewrite !app_nil_r|].
  apply Forall_fmap, Forall_true. done.
Qed.

(** C5: the migration files the script goes through are exactly the
    entries of the migration directory that end in [.sql], each once,
    in the lexicographic order of their names, and the script opens
    them in that order. *)
Theorem migrations_in_sorted_order (w : W) (entries : gset string) :
  preconditions_hold urlparse_hostname h w →
  migrations h = Some entries →
  let files := sorted_sql_files entries in
  StronglySorted String.le files
  ∧ NoDup files
  ∧ (∀ name, name ∈ files ↔ name ∈ entries ∧ has_suffix ".sql" name = true)
  ∧ opened (run urlparse_hostname h w)
    = (λ f, migration_dir +:+ "/" +:+ f) <$> files.
Proof.
  intros Hhold Hdir files. split_and!.
  - apply sorted_sql_files_sorted.
  - apply sorted_sql_files_NoDup.
  - apply sorted_sql_files_elem_of.
  - destruct (preflight_holds w Hhold) as (ref & key & entries' & Hres & Hdir' & _).
    rewrite Hdir in Hdir'. simplify_eq. by eapply run_opened.
Qed.

Lemma run_failed_migrations (w : W) dsn files :
  res (preflight urlparse_hostname h (initial w)) = inr (dsn, files) →
  failed_migrations (st (run urlparse_hostname h w))
  = failed_migrations
      (st (for_each files (run_migration h dsn)
             (with_failed (st (preflight urlparse_hostname h (initial w))) []))).
Proof.
  intros Hres. unfold run. erewrite main_returns by done. cbn [st].
  apply verify_tables_keeps_failed.
Qed.

(** C9: during the loop and after it, [failed_migrations] is a
    subsequence of the sorted list of migration files: after any number
    [k] of turns it is a subsequence of the [k] files gone through, in
    their order and without repetition, and so it is at the end of the
    run. *)
Theorem failed_migrations_subsequence (w : W) dsn files (k : nat) :
  res (preflight urlparse_hostname h (initial w)) = inr (dsn, files) →
  let s0 := with_failed (st (preflight urlparse_hostname h (initial w))) [] in
  let during := for_each (take k files) (run_migration h dsn) s0 in
  let rest := for_each (drop k files) (run_migration h dsn) (st during) in
  for_each files (run_migration h dsn) s0
  = {| st := st rest; evs := evs during ++ evs rest; res := inr tt |}
  ∧ StronglySorted String.le files
  ∧ NoDup files
  ∧ failed_migrations (st during) `sublist_of` take k files
  ∧ failed_migrations (st during) `sublist_of` files
  ∧ NoDup (failed_migrations (st during))
  ∧ failed_migrations (st (run urlparse_hostname h w)) `sublist_of` files
  ∧ NoDup (failed_migrations (st (run urlparse_hostname h w))).
Proof.
  intros Hres s0 during rest.
  destruct (preflight_files _ _ _ Hres) as (entries & Hdir & Hfiles).
  assert (NoDup files) as Hnodup
    by (rewrite Hfiles; apply sorted_sql_files_NoDup).
  assert (failed_migrations (st during) `sublist_of` take k files) as Hk.
  { destruct (loop_failed_sublist dsn (take k files) s0) as (failed & Heq & Hsub).
    subst during. by rewrite Heq. }
  assert (failed_migrations (st during) `sublist_of` files) as Hall.
  { etrans; [apply Hk|apply sublist_take]. }
  assert (failed_migrations (st (run urlparse_hostname h w)) `sublist_of` files)
    as Hend.
  { rewrite (run_failed_migrations w dsn files Hres).
    destruct (loop_failed_sublist dsn files s0) as (failed & Heq & Hsub).
    fold s0. by rewrite Heq. }
  split_and!; try done.
  - rewrite <-(take_drop k files) at 1. apply loop_app.
  - rewrite Hfiles. apply sorted_sql_files_sorted.
  - by eapply sublist_NoDup.
  - by eapply sublist_NoDup.
Qed.

Lemma run_no_rollback (w : W) :
  Forall no_rollback (evs (run urlparse_hostname h w)).
Proof.
  assert (emits_only no_rollback (preflight urlparse_hostname h)) as Hpre.
  { unfold preflight, load_configuration, extract_project_ref,
      test_connection, get_migration_files.
    phase_rules. }
  assert (∀ dsn e, talks_to dsn e → no_rollback e) as Himpl by by intros dsn [].
  unfold run.
  destruct (res (preflight urlparse_hostname h (initial w)))
    as [e|[dsn files]] eqn:Hres.
  - erewrite main_exits by done. apply Hpre.
  - erewrite main_returns by done. cbn [evs]. rewrite !Forall_app. split_and!.
    + apply Hpre.
    + eapply Forall_impl; [apply loop_talks_to|apply Himpl].
    + eapply Forall_impl; [apply verify_tables_talks_to|apply Himpl].
    + apply Forall_fmap, Forall_true. done.
Qed.

(** C2: when the body of the loop raises for a migration file, a
    database error or any other exception, the error is printed, the
    name of the file is appended to [failed_migrations], and the loop
    goes on with the files that follow, from the state the failing turn
    left: the turns before it are those of a loop over the earlier files
    alone, every file is opened once, in order, nothing is rolled back,
    and the verification opens its connection after the loop. *)
Theorem failed_migration_is_recorded (w : W) dsn before f after (e : exn) :
  res (preflight urlparse_hostname h (initial w))
  = inr (dsn, before ++ f :: after) →
  let pre := preflight urlparse_hostname h (initial w) in
  let earlier := for_each before (run_migration h dsn) (with_failed (st pre) []) in
  let body := migration_body h dsn f (st earlier) in
  res body = inl e →
  let recorded :=
    {| world := world (st body);
       failed_migrations := failed_migrations (st earlier) ++ [f];
       missing_tables := missing_tables (st earlier) |} in
  let later := for_each after (run_migration h dsn) recorded in
  let r := run urlparse_hostname h w in
  is_Exception e
  ∧ (∃ msg tail,
       evs r
       = evs pre ++ evs earlier
         ++ [Print (info_line ("Running migration: " +:+ f))]
         ++ evs body ++ [Print (error_line (f +:+ msg))]
         ++ evs later
         ++ Print verifying :: Connect dsn :: tail)
  ∧ (∃ more, failed_migrations (st r)
             = failed_migrations (st earlier) ++ [f] ++ more
             ∧ more `sublist_of` after)
  ∧ opened r = (λ f, migration_dir +:+ "/" +:+ f) <$> (before ++ f :: after)
  ∧ Forall no_rollback (evs r)
  ∧ res r = inr tt.
Proof.
  intros Hres pre earlier body Hbody recorded later r.
  pose proof (migration_body_raises dsn f _ _ Hbody) as He.
  destruct (run_migration_catches dsn f (st earlier) e Hbody) as [msg Hturn].
  fold body in Hturn.
  assert (for_each (before ++ f :: after) (run_migration h dsn)
            (with_failed (st pre) [])
          = {| st := st later;
               evs := evs earlier
                      ++ (Print (info_line ("Running migration: " +:+ f))
                            :: evs body ++ [Print (error_line (f +:+ msg))])
                      ++ evs later;
               res := inr tt |}) as Hloop.
  { rewrite loop_app. cbv zeta. fold earlier.
    rewrite loop_cons. cbv zeta. rewrite Hturn. cbn [st evs]. done. }
  split_and!.
  - done.
  - destruct (verify_tables_starts dsn (st later)) as [tail Hverify].
    exists msg. eexists.
    subst r. unfold run. erewrite main_returns by done.
    cbn [evs]. fold pre. rewrite Hloop. cbn [st evs]. rewrite Hverify.
    rewrite <-!(assoc_L (++)). cbn [app]. rewrite <-!(assoc_L (++)).
    reflexivity.
  - destruct (loop_failed_sublist dsn after recorded) as (more & Hmore & Hsub).
    exists more. split; [|done].
    subst r. rewrite (run_failed_migrations w dsn _ Hres).
    fold pre. rewrite Hloop. cbn [st]. subst later. rewrite Hmore.
    subst recorded. cbn [failed_migrations]. by rewrite <-(assoc_L (++)).
  - by apply (run_opened w dsn).
  - apply run_no_rollback.
  - subst r. unfold run. by erewrite main_returns.
Qed.

(** ** The claims about the final summary *)

Lemma string_app_assoc (a b c : string) : (a +:+ b) +:+ c = a +:+ b +:+ c.
Proof.
  unfold String.app. induction a as [|x a IH]; simpl; [done|]. by rewrite IH.
Qed.

Lemma string_app_nil_r (a : string) : a +:+ "" = a.
Proof.
  unfold String.app. induction a as [|x a IH]; simpl; [done|]. by rewrite IH.
Qed.

(** Every string of a list occurs in the list joined. *)
Lemma join_occurs (sep : string) (l : list string) (x : string) :
  x ∈ l → occurs_in x (join sep l).
Proof.
  unfold join. induction l as [|y l IH]; [by intros ?%elem_of_nil|].
  intros [->|Hin]%elem_of_cons.
  - destruct l as [|z l]; simpl.
    + exists "", "". by rewrite string_app_nil_r.
    + by exists "", (sep +:+ String.concat sep (z :: l)).
  - destruct (IH Hin) as (before & after & Heq).
    destruct l as [|z l]; [by apply elem_of_nil in Hin|].
    change (String.concat sep (y :: z :: l))
      with (y +:+ sep +:+ String.concat sep (z :: l)).
    rewrite Heq. exists (y +:+ sep +:+ before), after.
    by rewrite !string_app_assoc.
Qed.

Lemma occurs_in_app_r (x before line : string) :
  occurs_in x line → occurs_in x (before +:+ line).
Proof.
  intros (b & a & ->). exists (before +:+ b), a. by rewrite string_app_assoc.
Qed.

Lemma success_banner_in_summary (missing failed : list string) :
  success_banner ∈ summary_lines missing failed ↔ missing = [] ∧ failed = [].
Proof.
  split.
  - destruct missing as [|t missing], failed as [|f failed]; [done|..];
      intros Hin; exfalso; simpl in Hin;
      repeat (apply elem_of_cons in Hin as [Hin|Hin];
              [vm_compute in Hin; discriminate Hin|]);
      by apply elem_of_nil in Hin.
  - intros [-> ->]. left.
Qed.

Lemma error_banner_in_summary (missing failed : list string) :
  error_banner ∈ summary_lines missing failed ↔ ¬ (missing = [] ∧ failed = []).
Proof.
  split.
  - intros Hin [-> ->]. simpl in Hin.
    repeat (apply elem_of_cons in Hin as [Hin|Hin];
            [vm_compute in Hin; discriminate Hin|]).
    by apply elem_of_nil in Hin.
  - intros Hne.
    destruct missing as [|t missing], failed as [|f failed];
      [by destruct Hne|left..].
Qed.

Lemma failed_line_in_summary (missing failed : list string) :
  failed ≠ [] →
  ("Failed migrations: " +:+ join ", " failed) ∈ summary_lines missing failed.
Proof.
  intros Hne. destruct failed as [|f failed]; [done|].
  destruct missing; simpl; apply list_elem_of_further, list_elem_of_here.
Qed.

Lemma missing_line_in_summary (missing failed : list string) :
  missing ≠ [] →
  ("Missing tables: " +:+ join ", " missing) ∈ summary_lines missing failed.
Proof.
  intros Hne. destruct missing as [|t missing]; [done|].
  destruct failed; simpl.
  - apply list_elem_of_further, list_elem_of_here.
  - do 3 apply list_elem_of_further. apply list_elem_of_here.
Qed.

Lemma printed_prints {A} (r : Out A) (lines : list string) :
  evs r = Print <$> lines → printed r = lines.
Proof.
  unfold printed. intros ->. induction lines as [|l lines IH]; [done|].
  simpl. f_equal. apply IH.
Qed.

(** What a run that returns has printed: lines that are no banner of
    the summary, then the summary for the two lists as they ended. *)
Lemma run_printed (w : W) :
  let r := run urlparse_hostname h w in
  res r = inr tt →
  ∃ before,
    printed r
    = before ++ summary_lines (missing_tables (st r)) (failed_migrations (st r))
    ∧ ∀ line, summary_banner line → line ∉ before.
Proof.
  intros r Hres. subst r. unfold run in *.
  destruct (res (preflight urlparse_hostname h (initial w)))
    as [e|[dsn files]] eqn:Hpre.
  { by erewrite main_exits in Hres. }
  erewrite main_returns by done. cbn [st evs]. unfold printed. cbn [evs].
  rewrite !omap_app.
  match goal with
  | |- context [omap ?f (evs (preflight _ _ ?s0))
                ++ omap _ (evs (for_each _ _ ?s1))
                ++ omap _ (evs (verify_tables _ ?s2)) ++ _] =>
      exists (printed (preflight urlparse_hostname h s0)
              ++ printed (for_each files (run_migration h dsn) s1)
              ++ printed (verify_tables dsn s2))
  end.
  split.
  - unfold printed. rewrite <-!(assoc_L (++)). do 3 f_equal.
    apply (printed_prints {| st := initial w; evs := _; res := inr tt |}).
    done.
  - intros line Hline. rewrite !not_elem_of_app. split_and!.
    + by apply printed_no_banner; [apply preflight_silent|].
    + by apply printed_no_banner; [apply loop_silent|].
    + by apply printed_no_banner; [apply verify_tables_silent|].
Qed.

Lemma run_success_banner (w : W) :
  let r := run urlparse_hostname h w in
  res r = inr tt →
  (success_banner ∈ printed r
   ↔ missing_tables (st r) = [] ∧ failed_migrations (st r) = [])
  ∧ (error_banner ∈ printed r
     ↔ ¬ (missing_tables (st r) = [] ∧ failed_migrations (st r) = [])).
Proof.
  intros r Hres. destruct (run_printed w Hres) as (before & Hprinted & Hbefore).
  fold r in Hprinted. rewrite Hprinted, !elem_of_app.
  rewrite success_banner_in_summary, error_banner_in_summary.
  split; split.
  - intros [Hin|Hin]; [|done]. destruct (Hbefore success_banner); [by left|done].
  - by right.
  - intros [Hin|Hin]; [|done]. destruct (Hbefore error_banner); [by right|done].
  - by right.
Qed.

(** C4: in a run that reaches the final summary, the success banner
    is printed exactly when [missing_tables] and [failed_migrations] are
    both empty, and the error banner exactly when they are not; the
    summary is the end of the output, and no line before it is one of
    the two banners.  With the error banner, a non-empty
    [failed_migrations] is printed on a line that names each of its
    files, and a non-empty [missing_tables] on a line that names each of
    its tables. *)
Theorem summary_banners (w : W) :
  let r := run urlparse_hostname h w in
  res r = inr tt →
  let missing := missing_tables (st r) in
  let failed := failed_migrations (st r) in
  (∃ before, printed r = before ++ summary_lines missing failed
             ∧ ∀ line, summary_banner line → line ∉ before)
  ∧ (success_banner ∈ printed r ↔ missing = [] ∧ failed = [])
  ∧ (error_banner ∈ printed r ↔ ¬ (missing = [] ∧ failed = []))
  ∧ (failed ≠ [] →
     ("Failed migrations: " +:+ join ", " failed) ∈ printed r
     ∧ ∀ f, f ∈ failed →
            occurs_in f ("Failed migrations: " +:+ join ", " failed))
  ∧ (missing ≠ [] →
     ("Missing tables: " +:+ join ", " missing) ∈ printed r
     ∧ ∀ t, t ∈ missing →
            occurs_in t ("Missing tables: " +:+ join ", " missing)).
Proof.
  intros r Hres missing failed.
  destruct (run_printed w Hres) as (before & Hprinted & Hbefore).
  fold r in Hprinted. fold missing failed in Hprinted.
  destruct (run_success_banner w Hres) as [Hsuccess Herror].
  split_and!; [by eauto|done|done|..].
  - intros Hne. split.
    + rewrite Hprinted, elem_of_app. right. by apply failed_line_in_summary.
    + intros f Hf. by apply occurs_in_app_r, join_occurs.
  - intros Hne. split.
    + rewrite Hprinted, elem_of_app. right. by apply missing_line_in_summary.
    + intros t Ht. by apply occurs_in_app_r, join_occurs.
Qed.

(** ** The claim about the verification *)

Lemma before_verification_st (w : W) dsn files :
  res (preflight urlparse_hostname h (initial w)) = inr (dsn, files) →
  st (before_verification urlparse_hostname h w)
  = st (for_each files (run_migration h dsn)
          (with_failed (st (preflight urlparse_hostname h (initial w))) [])).
Proof.
  intros Hres. unfold before_verification.
  erewrite bind_inr by done. cbv beta iota. cbn [st].
  by rewrite run_migrations_run.
Qed.

Lemma absent_nil (tables : list string) (answers : list bool) :
  length answers = length tables →
  absent tables answers = [] ↔ Forall (λ b, b = true) answers.
Proof.
  revert answers. induction tables as [|t tables IH]; intros [|b answers] Hlen;
    simplify_eq/=.
  - split; [constructor|done].
  - destruct b; simpl.
    + change (absent tables answers = [] ↔ Forall (λ b, b = true) (true :: answers)).
      rewrite Forall_cons, IH by done. tauto.
    + split; [done|]. by intros [[=] _]%Forall_cons.
Qed.

Lemma elem_of_absent (tables : list string) (answers : list bool) t :
  t ∈ absent tables answers ↔ (t, false) ∈ zip tables answers.
Proof.
  unfold absent. rewrite list_elem_of_fmap. split.
  - intros ([t' b] & -> & [Hb Hin]%list_elem_of_filter). simpl in *. by subst.
  - intros Hin. exists (t, false). split; [done|].
    by apply list_elem_of_filter.
Qed.

(** C1, as the code has it: in a run that reaches the verification,
    when the database answers every query of the verification,
    [missing_tables] ends as the tables reported absent, in the order
    asked.  If the three tables are reported present and no migration
    failed, the success banner is printed and the error banner is not;
    if a table is reported absent, a line lists the missing tables, those
    reported absent and no other, and the success banner is not
    printed. *)
Theorem verification_summary (w : W) dsn files (answers : list bool) :
  res (preflight urlparse_hostname h (initial w)) = inr (dsn, files) →
  verification_answers dsn (world (st (before_verification urlparse_hostname h w)))
  = Some answers →
  let r := run urlparse_hostname h w in
  let missing := absent tables_to_check answers in
  missing_tables (st r) = missing
  ∧ (missing = [] ↔ answers = [true; true; true])
  ∧ (∀ t, t ∈ missing ↔ (t, false) ∈ zip tables_to_check answers)
  ∧ (missing = [] → failed_migrations (st r) = [] →
     success_banner ∈ printed r ∧ error_banner ∉ printed r)
  ∧ (missing ≠ [] →
     ("Missing tables: " +:+ join ", " missing) ∈ printed r
     ∧ (∀ t, t ∈ missing → occurs_in t ("Missing tables: " +:+ join ", " missing))
     ∧ (success_banner ∉ printed r)
     ∧ error_banner ∈ printed r).
Proof.
  intros Hpre Hans r missing.
  rewrite (before_verification_st w dsn files Hpre) in Hans.
  assert (res r = inr tt) as Hres.
  { subst r. unfold run. by erewrite main_returns. }
  assert (missing_tables (st r) = missing ∧ length answers = 3%nat)
    as [Hmissing Hlen].
  { subst r. unfold run. erewrite main_returns by done. cbn [st].
    by apply verify_tables_answers. }
  destruct (run_success_banner w Hres) as [Hsuccess Herror].
  fold r in Hsuccess, Herror. rewrite Hmissing in Hsuccess, Herror.
  split_and!.
  - done.
  - subst missing. rewrite absent_nil by done.
    destruct answers as [|a [|b [|c [|]]]]; simplify_eq/=.
    rewrite !Forall_cons. split.
    + by intros (-> & -> & -> & _).
    + intros [= -> -> ->]. by repeat split.
  - intros t. apply elem_of_absent.
  - intros Hnil Hfailed. split.
    + by apply Hsuccess.
    + rewrite Herror. by intros [].
  - intros Hne. split_and!.
    + destruct (run_printed w Hres) as (before & Hprinted & _).
      fold r in Hprinted. rewrite Hprinted, Hmissing, elem_of_app. right.
      by apply missing_line_in_summary.
    + intros t Ht. by apply occurs_in_app_r, join_occurs.
    + rewrite Hsuccess. by intros [? _].
    + apply Herror. by intros [? _].
Qed.

(** ** One turn of the loop, call by call *)

Lemma db_call_returns ev (op : W → W * option string) (s : State) w :
  op (world s) = (w, None) →
  db_call ev op s = {| st := set_world s w; evs := [ev]; res := inr tt |}.
Proof. intros Hop. unfold db_call. by rewrite Hop. Qed.

Lemma db_call_raises ev (op : W → W * option string) (s : State) w msg :
  op (world s) = (w, Some msg) →
  db_call ev op s
  = {| st := set_world s w; evs := [ev]; res := inl (Psycopg2Error msg) |}.
Proof. intros Hop. unfold db_call. by rewrite Hop. Qed.

Section Turn.
Context (dsn : ConnParams) (filename : string) (s : State).
Let body := migration_body h dsn filename s.
Let path := migration_path filename.

Lemma turn_unreadable cls msg :
  read_text h path = ReadRaises cls msg →
  body = {| st := s; evs := [OpenFile path]; res := inl (PyException cls msg) |}.
Proof.
  intros Hread. subst body path. unfold migration_body, open_read, migration_path in *.
  rewrite bind_assoc. erewrite bind_run_inr by reflexivity.
  rewrite Hread. by erewrite bind_run_inl by reflexivity.
Qed.

Context (text : string).
Hypothesis Hread : read_text h path = ReadOk text.

Lemma turn_read :
  body
  = let r := (connect dsn;;
              with_cursor (execute text None;; commit);;
              close;;
              log_success (filename +:+ " completed successfully" +:+ nl)) s in
    {| st := st r; evs := OpenFile path :: evs r; res := res r |}.
Proof.
  subst body path. unfold migration_body, open_read, migration_path in *.
  rewrite bind_assoc. erewrite bind_run_inr by reflexivity.
  rewrite Hread. by erewrite bind_run_inr by reflexivity.
Qed.

Lemma turn_connect_fails w1 msg :
  pg_connect dsn (world s) = (w1, Some msg) →
  body = {| st := set_world s w1;
            evs := [OpenFile path; Connect dsn];
            res := inl (Psycopg2Error msg) |}.
Proof.
  intros Hc. rewrite turn_read. cbv zeta.
  by erewrite bind_run_inl by by apply db_call_raises.
Qed.

Context (w1 : W).
Hypothesis Hconnect : pg_connect dsn (world s) = (w1, None).

Lemma turn_cursor_fails w2 msg :
  pg_cursor w1 = (w2, Some msg) →
  body = {| st := set_world s w2;
            evs := [OpenFile path; Connect dsn; Cursor];
            res := inl (Psycopg2Error msg) |}.
Proof.
  intros Hcur. rewrite turn_read. cbv zeta.
  erewrite bind_run_inr by by apply db_call_returns.
  unfold with_cursor. rewrite bind_assoc.
  by erewrite bind_run_inl by by apply db_call_raises.
Qed.

Context (w2 : W).
Hypothesis Hcursor : pg_cursor w1 = (w2, None).

Lemma turn_execute_fails w3 msg :
  pg_execute text None w2 = (w3, Some msg) →
  body = {| st := set_world s w3;
            evs := [OpenFile path; Connect dsn; Cursor; Execute text None;
                    CursorClose];
            res := inl (Psycopg2Error msg) |}.
Proof.
  intros Hex. rewrite turn_read. cbv zeta.
  erewrite bind_run_inr by by apply db_call_returns.
  unfold with_cursor. rewrite bind_assoc.
  erewrite bind_run_inr by by apply db_call_returns.
  erewrite bind_run_inl; [done|].
  unfold try_finally.
  by erewrite bind_run_inl by by apply db_call_raises.
Qed.

Context (w3 : W).
Hypothesis Hexecute : pg_execute text None w2 = (w3, None).

Lemma turn_commit_fails w4 msg :
  pg_commit w3 = (w4, Some msg) →
  body = {| st := set_world s w4;
            evs := [OpenFile path; Connect dsn; Cursor; Execute text None;
                    Commit; CursorClose];
            res := inl (Psycopg2Error msg) |}.
Proof.
  intros Hco. rewrite turn_read. cbv zeta.
  erewrite bind_run_inr by by apply db_call_returns.
  unfold with_cursor. rewrite bind_assoc.
  erewrite bind_run_inr by by apply db_call_returns.
  erewrite bind_run_inl; [done|].
  unfold try_finally.
  erewrite bind_run_inr by by apply db_call_returns.
  unfold commit. by erewrite db_call_raises.
Qed.

Context (w4 : W).
Hypothesis Hcommit : pg_commit w3 = (w4, None).

Lemma turn_close_fails w5 msg :
  pg_close w4 = (w5, Some msg) →
  body = {| st := set_world s w5;
            evs := [OpenFile path; Connect dsn; Cursor; Execute text None;
                    Commit; CursorClose; Close];
            res := inl (Psycopg2Error msg) |}.
Proof.
  intros Hcl. rewrite turn_read. cbv zeta.
  erewrite bind_run_inr by by apply db_call_returns.
  unfold with_cursor. rewrite bind_assoc.
  erewrite bind_run_inr by by apply db_call_returns.
  erewrite bind_run_inr; last first.
  { unfold try_finally.
    erewrite bind_run_inr by by apply db_call_returns.
    unfold commit. by erewrite db_call_returns. }
  by erewrite bind_run_inl by by apply db_call_raises.
Qed.

Lemma turn_returns w5 :
  pg_close w4 = (w5, None) →
  body = {| st := set_world s w5;
            evs := [OpenFile path; Connect dsn; Cursor; Execute text None;
                    Commit; CursorClose; Close;
                    Print (success_line (filename +:+ " completed successfully"
                                           +:+ nl))];
            res := inr tt |}.
Proof.
  intros Hcl. rewrite turn_read. cbv zeta.
  erewrite bind_run_inr by by apply db_call_returns.
  unfold with_cursor. rewrite bind_assoc.
  erewrite bind_run_inr by by apply db_call_returns.
  erewrite bind_run_inr; last first.
  { unfold try_finally.
    erewrite bind_run_inr by by apply db_call_returns.
    unfold commit. by erewrite db_call_returns. }
  by erewrite bind_run_inr by by apply db_call_returns.
Qed.

End Turn.

(** The handler of the loop, after a database error and after another
    exception. *)
Lemma run_migration_db_error dsn filename (s s' : State) tr msg :
  migration_body h dsn filename s
  = {| st := s'; evs := tr; res := inl (Psycopg2Error msg) |} →
  run_migration h dsn filename s
  = {| st := {| world := world s';
                failed_migrations := failed_migrations s' ++ [filename];
                missing_tables := missing_tables s' |};
       evs := Print (info_line ("Running migration: " +:+ filename))
                :: tr ++ [Print (error_line (filename +:+ " failed: "
                                               +:+ msg +:+ nl))];
       res := inr tt |}.
Proof.
  intros Hbody. unfold run_migration, log_info, print.
  erewrite bind_run_inr by reflexivity.
  unfold try_except. by rewrite Hbody.
Qed.

Lemma run_migration_other_error dsn filename (s s' : State) tr cls msg :
  migration_body h dsn filename s
  = {| st := s'; evs := tr; res := inl (PyException cls msg) |} →
  run_migration h dsn filename s
  = {| st := {| world := world s';
                failed_migrations := failed_migrations s' ++ [filename];
                missing_tables := missing_tables s' |};
       evs := Print (info_line ("Running migration: " +:+ filename))
                :: tr ++ [Print (error_line (filename
                                               +:+ " failed with unexpected error: "
                                               +:+ msg +:+ nl))];
       res := inr tt |}.
Proof.
  intros Hbody. unfold run_migration, log_info, print.
  erewrite bind_run_inr by reflexivity.
  unfold try_except. by rewrite Hbody.
Qed.

(** The seven ways the body of a turn can go: the events after the
    opening of the file, and the result. *)
Lemma turn_cases dsn filename (s : State) :
  ∃ tr v w',
    migration_body h dsn filename s
    = {| st := set_world s w'; evs := OpenFile (migration_path filename) :: tr;
         res := v |}
    ∧ ((tr = [] ∧ w' = world s
        ∧ ∃ cls msg, read_text h (migration_path filename) = ReadRaises cls msg
                     ∧ v = inl (PyException cls msg))
       ∨ ∃ text,
           read_text h (migration_path filename) = ReadOk text
           ∧ ((tr = [Connect dsn; Cursor; Execute text None; Commit;
                     CursorClose; Close;
                     Print (success_line (filename +:+ " completed successfully"
                                            +:+ nl))]
               ∧ v = inr tt)
              ∨ ((∃ msg, v = inl (Psycopg2Error msg))
                 ∧ (tr = [Connect dsn]
                    ∨ tr = [Connect dsn; Cursor]
                    ∨ tr = [Connect dsn; Cursor; Execute text None; CursorClose]
                    ∨ tr = [Connect dsn; Cursor; Execute text None; Commit;
                            CursorClose]
                    ∨ tr = [Connect dsn; Cursor; Execute text None; Commit;
                            CursorClose; Close])))).
Proof.
  destruct (read_text h (migration_path filename)) as [text|cls msg] eqn:Hread.
  2:{ eexists [], _, (world s). split.
      - erewrite turn_unreadable by done. by destruct s.
      - left. split_and!; [done..|]. by eexists _, _. }
  destruct (pg_connect dsn (world s)) as [w1 [msg|]] eqn:Hc.
  { eexists _, _, _. split; [by eapply turn_connect_fails|].
    right. exists text. split; [done|]. right. split; [by eexists|]. by left. }
  destruct (pg_cursor w1) as [w2 [msg|]] eqn:Hcur.
  { eexists _, _, _. split; [by eapply turn_cursor_fails|].
    right. exists text. split; [done|]. right. split; [by eexists|].
    right. by left. }
  destruct (pg_execute text None w2) as [w3 [msg|]] eqn:Hex.
  { eexists _, _, _. split; [by eapply turn_execute_fails|].
    right. exists text. split; [done|]. right. split; [by eexists|].
    right. right. by left. }
  destruct (pg_commit w3) as [w4 [msg|]] eqn:Hco.
  { eexists _, _, _. split; [by eapply turn_commit_fails|].
    right. exists text. split; [done|]. right. split; [by eexists|].
    do 3 right. by left. }
  destruct (pg_close w4) as [w5 [msg|]] eqn:Hcl.
  { eexists _, _, _. split; [by eapply turn_close_fails|].
    right. exists text. split; [done|]. right. split; [by eexists|].
    by do 4 right. }
  eexists _, _, _. split; [by eapply turn_returns|].
  right. exists text. split; [done|]. by left.
Qed.

(** ** More properties of the migration loop *)

(** X1: a turn of the loop whose body returns has read the file, opened
    one connection, sent the whole text of the file as one statement
    without arguments, committed, closed the cursor and the connection,
    and printed the success line, in this order and nothing else. *)
Theorem applied_migration_trace dsn filename (s : State) :
  res (migration_body h dsn filename s) = inr tt →
  ∃ text,
    read_text h (migration_path filename) = ReadOk text
    ∧ evs (migration_body h dsn filename s)
      = [ OpenFile (migration_path filename);
          Connect dsn; Cursor; Execute text None; Commit; CursorClose; Close;
          Print (success_line (filename +:+ " completed successfully" +:+ nl)) ]
    ∧ failed_migrations (st (run_migration h dsn filename s))
      = failed_migrations s.
Proof.
  intros Hres.
  destruct (turn_cases dsn filename s) as (tr & v & w' & Hbody & Hcases).
  rewrite Hbody in Hres. simpl in Hres. subst v.
  destruct Hcases as [(_ & _ & cls & msg & _ & [=])|(text & Hread & Hcases)].
  destruct Hcases as [[-> _]|[[msg [=]] _]].
  exists text. split_and!; [done|by rewrite Hbody|].
  rewrite run_migration_returns by by rewrite Hbody.
  by rewrite Hbody.
Qed.

(** X2: when the body of a turn raises, the connection of the turn was
    closed only if it is the closing that raised, after the commit; a
    turn that fails earlier attempts no close at all and leaves its
    connection open. *)
Theorem failing_turn_closes_only_after_commit dsn filename (s : State) e :
  res (migration_body h dsn filename s) = inl e →
  Close ∈ evs (migration_body h dsn filename s) →
  ∃ text,
    read_text h (migration_path filename) = ReadOk text
    ∧ evs (migration_body h dsn filename s)
      = [ OpenFile (migration_path filename);
          Connect dsn; Cursor; Execute text None; Commit; CursorClose; Close ].
Proof.
  intros Hres Hclose.
  destruct (turn_cases dsn filename s) as (tr & v & w' & Hbody & Hcases).
  rewrite Hbody in Hres, Hclose |- *. cbn [evs res] in *. subst v.
  assert (∀ l, Close ∈ OpenFile (migration_path filename) :: l → Close ∈ l)
    as Hskip by (intros l [[=]|Hl]%elem_of_cons; done).
  apply Hskip in Hclose.
  destruct Hcases as [(-> & _)|(text & Hread & Hcases)].
  { by apply elem_of_nil in Hclose. }
  exists text. split; [done|].
  destruct Hcases as [[_ [=]]|[_ Htr]].
  destruct Htr as [->|[->|[->|[->| ->]]]]; [exfalso..|done];
    repeat (apply elem_of_cons in Hclose as [[=]|Hclose]);
    by apply elem_of_nil in Hclose.
Qed.

(** X3: a migration file that cannot be opened or read is recorded as
    failed without any call to the database: the turn prints its two
    lines, appends the name, and leaves the database as it was. *)
Theorem unreadable_migration dsn filename (s : State) cls msg :
  read_text h (migration_path filename) = ReadRaises cls msg →
  run_migration h dsn filename s
  = {| st := {| world := world s;
                failed_migrations := failed_migrations s ++ [filename];
                missing_tables := missing_tables s |};
       evs := [ Print (info_line ("Running migration: " +:+ filename));
                OpenFile (migration_path filename);
                Print (error_line (filename +:+ " failed with unexpected error: "
                                     +:+ msg +:+ nl)) ];
       res := inr tt |}.
Proof.
  intros Hread.
  by erewrite run_migration_other_error by by apply turn_unreadable.
Qed.

(** X4: a batch the database rejects is not committed: when the
    execution of the text raises, the turn closes its cursor, attempts
    neither commit nor close, prints the error of the database and
    appends the name of the file to [failed_migrations]. *)
Theorem rejected_batch dsn filename (s : State) text w1 w2 w3 msg :
  read_text h (migration_path filename) = ReadOk text →
  pg_connect dsn (world s) = (w1, None) →
  pg_cursor w1 = (w2, None) →
  pg_execute text None w2 = (w3, Some msg) →
  run_migration h dsn filename s
  = {| st := {| world := w3;
                failed_migrations := failed_migrations s ++ [filename];
                missing_tables := missing_tables s |};
       evs := [ Print (info_line ("Running migration: " +:+ filename));
                OpenFile (migration_path filename);
                Connect dsn; Cursor; Execute text None; CursorClose;
                Print (error_line (filename +:+ " failed: " +:+ msg +:+ nl)) ];
       res := inr tt |}.
Proof.
  intros Hread Hc Hcur Hex.
  by erewrite run_migration_db_error by by eapply turn_execute_fails.
Qed.

(** X5: a file can be recorded as failed although its batch was
    committed: when everything up to the commit succeeds and the closing
    of the connection raises, the name of the file is appended to
    [failed_migrations] and the world is the one after the commit and
    the close. *)
Theorem committed_yet_recorded_failed
    dsn filename (s : State) text w1 w2 w3 w4 w5 msg :
  read_text h (migration_path filename) = ReadOk text →
  pg_connect dsn (world s) = (w1, None) →
  pg_cursor w1 = (w2, None) →
  pg_execute text None w2 = (w3, None) →
  pg_commit w3 = (w4, None) →
  pg_close w4 = (w5, Some msg) →
  run_migration h dsn filename s
  = {| st := {| world := w5;
                failed_migrations := failed_migrations s ++ [filename];
                missing_tables := missing_tables s |};
       evs := [ Print (info_line ("Running migration: " +:+ filename));
                OpenFile (migration_path filename);
                Connect dsn; Cursor; Execute text None; Commit; CursorClose;
                Close;
                Print (error_line (filename +:+ " failed: " +:+ msg +:+ nl)) ];
       res := inr tt |}.
Proof.
  intros Hread Hc Hcur Hex Hco Hcl.
  by erewrite run_migration_db_error by by eapply turn_close_fails.
Qed.

(** One turn of the loop, handler included: the events between the
    opening of the file and the last line, that line, and the list of
    failed migrations after the turn. *)
Lemma run_migration_cases dsn filename (s : State) :
  ∃ tr line w' failed,
    run_migration h dsn filename s
    = {| st := {| world := w'; failed_migrations := failed;
                  missing_tables := missing_tables s |};
         evs := Print (info_line ("Running migration: " +:+ filename))
                  :: OpenFile (migration_path filename) :: tr ++ [Print line];
         res := inr tt |}
    ∧ ((failed = failed_migrations s
        ∧ line = success_line (filename +:+ " completed successfully" +:+ nl)
        ∧ ∃ text, read_text h (migration_path filename) = ReadOk text
                  ∧ tr = [Connect dsn; Cursor; Execute text None; Commit;
                          CursorClose; Close])
       ∨ (failed = failed_migrations s ++ [filename]
          ∧ (∃ msg, line = error_line msg)
          ∧ ((tr = [] ∧ ∃ cls msg, read_text h (migration_path filename)
                                   = ReadRaises cls msg)
             ∨ ∃ text,
                 read_text h (migration_path filename) = ReadOk text
                 ∧ (tr = [Connect dsn]
                    ∨ tr = [Connect dsn; Cursor]
                    ∨ tr = [Connect dsn; Cursor; Execute text None; CursorClose]
                    ∨ tr = [Connect dsn; Cursor; Execute text None; Commit;
                            CursorClose]
                    ∨ tr = [Connect dsn; Cursor; Execute text None; Commit;
                            CursorClose; Close])))).
Proof.
  destruct (turn_cases dsn filename s) as (tr & v & w' & Hbody & Hcases).
  destruct Hcases as [(-> & -> & cls & msg & Hread & ->)|(text & Hread & Hcases)].
  { eexists [], _, _, _. split.
    - erewrite run_migration_other_error by done. reflexivity.
    - right. split_and!; [done|by eexists|]. left. eauto. }
  destruct Hcases as [[-> ->]|[[msg ->] Htr]].
  - eexists [Connect dsn; Cursor; Execute text None; Commit; CursorClose; Close],
      _, _, _.
    split.
    + rewrite run_migration_returns by by rewrite Hbody.
      rewrite Hbody. reflexivity.
    + left. split_and!; [done..|]. by exists text.
  - eexists tr, _, _, _. split.
    + erewrite run_migration_db_error by done. reflexivity.
    + right. split_and!; [done|by eexists|]. right. by exists text.
Qed.

Lemma is_success_line_success msg : is_success_line (success_line msg) = true.
Proof. by destruct msg. Qed.

Lemma is_success_line_error msg : is_success_line (error_line msg) = false.
Proof. reflexivity. Qed.

Lemma is_success_line_info msg : is_success_line (info_line msg) = false.
Proof. reflexivity. Qed.

Ltac turn_cases_of dsn filename s :=
  let tr := fresh "tr" in
  let line := fresh "line" in
  let w' := fresh "w'" in
  let failed := fresh "failed" in
  let Hturn := fresh "Hturn" in
  let Hcases := fresh "Hcases" in
  destruct (run_migration_cases dsn filename s)
    as (tr & line & w' & failed & Hturn & Hcases);
  rewrite Hturn;
  destruct Hcases
    as [(-> & -> & ?text & ?Hread & ->)
       |(-> & [?msg ->] & [(-> & ?cls & ?msg & ?Hread)
                          |(?text & ?Hread & [->|[->|[->|[->| ->]]]])])].

(** A turn opens one connection when the file can be read, and none
    otherwise. *)
Lemma turn_connections dsn filename (s : State) :
  connections (run_migration h dsn filename s)
  = if readable h filename then [dsn] else [].
Proof.
  unfold readable.
  turn_cases_of dsn filename s; by rewrite Hread.
Qed.

(** What a turn sends to the database is the text of its file, without
    arguments. *)
Lemma turn_executed dsn filename (s : State) sql args :
  (sql, args) ∈ executed (run_migration h dsn filename s) →
  args = None ∧ read_text h (migration_path filename) = ReadOk sql.
Proof.
  turn_cases_of dsn filename s; unfold executed; cbn;
    intros Hin;
    repeat (apply elem_of_cons in Hin as [[= -> ->]|Hin]; [done|]);
    by apply elem_of_nil in Hin.
Qed.

(** A turn ends in exactly one of two ways: the success line is
    printed, or the file is appended to [failed_migrations]. *)
Lemma turn_accounting dsn filename (s : State) :
  let r := run_migration h dsn filename s in
  (length (filter (λ line, is_success_line line = true) (printed r))
   + length (failed_migrations (st r)))%nat
  = S (length (failed_migrations s)).
Proof.
  assert (∀ l (x : string), length (l ++ [x]) = S (length l)) as Hsnoc.
  { intros l x. rewrite length_app. simpl. lia. }
  cbv zeta.
  turn_cases_of dsn filename s; unfold printed; cbn [st evs failed_migrations];
    cbn [omap list_omap app]; rewrite ?Hsnoc;
    rewrite ?filter_cons, ?filter_nil,
      ?is_success_line_info, ?is_success_line_error, ?is_success_line_success;
    repeat case_decide; try done; simpl; lia.
Qed.

Lemma connections_app {A B} (r1 : Out A) (r2 : Out B) (r : Out unit) :
  evs r = evs r1 ++ evs r2 →
  connections r = connections r1 ++ connections r2.
Proof. unfold connections. intros ->. apply omap_app. Qed.

Lemma loop_connections dsn files (s : State) :
  connections (for_each files (run_migration h dsn) s)
  = replicate (length (filter (λ f, readable h f = true) files)) dsn.
Proof.
  revert s. induction files as [|f files IH]; intros s; [done|].
  rewrite loop_cons. cbv zeta. unfold connections in *. cbn [evs].
  rewrite omap_app, IH.
  pose proof (turn_connections dsn f s) as Hturn. unfold connections in Hturn.
  rewrite Hturn, filter_cons.
  destruct (readable h f); by case_decide.
Qed.

(** X13: the loop accounts for every file: the number of success lines
    it prints and the number of names it appends to [failed_migrations]
    add up to the number of files, so that each file ends either with its
    success line or in the list, never both and never neither. *)
Theorem loop_accounting dsn files (s : State) :
  let r := for_each files (run_migration h dsn) s in
  (length (filter (λ line, is_success_line line = true) (printed r))
   + length (failed_migrations (st r)))%nat
  = (length files + length (failed_migrations s))%nat.
Proof.
  revert s. induction files as [|f files IH]; intros s; [done|].
  cbv zeta in *. rewrite loop_cons. cbv zeta.
  unfold printed in *. cbn [st evs]. rewrite omap_app, filter_app, length_app.
  pose proof (turn_accounting dsn f s) as Hturn. cbv zeta in Hturn.
  unfold printed in Hturn.
  specialize (IH (st (run_migration h dsn f s))).
  rewrite length_cons. lia.
Qed.

Lemma loop_executed dsn files (s : State) sql args :
  (sql, args) ∈ executed (for_each files (run_migration h dsn) s) →
  args = None
  ∧ ∃ f, f ∈ files ∧ read_text h (migration_path f) = ReadOk sql.
Proof.
  revert s. induction files as [|f files IH]; intros s.
  { by intros ?%elem_of_nil. }
  rewrite loop_cons. cbv zeta. unfold executed in *. cbn [evs].
  rewrite omap_app, elem_of_app. intros [Hin|Hin].
  - destruct (turn_executed dsn f s sql args Hin) as [-> Hread].
    split; [done|]. exists f. split; [left|done].
  - destruct (IH _ Hin) as [-> (f' & Hf' & Hread)].
    split; [done|]. exists f'. split; [by right|done].
Qed.

(** ** More properties of a whole run *)

Lemma preflight_no_statement :
  emits_only no_statement (preflight urlparse_hostname h).
Proof.
  unfold preflight, load_configuration, extract_project_ref,
    test_connection, get_migration_files.
  phase_rules.
Qed.

Lemma executed_nil {A} (r : Out A) :
  Forall no_statement (evs r) → executed r = [].
Proof.
  intros Hr. apply omap_none. eapply Forall_impl; [apply Hr|]. by intros [].
Qed.

Lemma connections_one dsn (l : list event) :
  Forall no_connect l → omap (λ e, match e with Connect d => Some d | _ => None end)
                           (Connect dsn :: l) = [dsn].
Proof.
  intros Hl. simpl. f_equal. apply omap_none.
  eapply Forall_impl; [apply Hl|]. by intros [].
Qed.

(** The preflight that returns has opened the connection of the probe
    and no other. *)
Lemma preflight_connections (s : State) dsn files :
  res (preflight urlparse_hostname h s) = inr (dsn, files) →
  connections (preflight urlparse_hostname h s) = [dsn].
Proof.
  intros Hres.
  destruct (preflight_outcome s) as (_ & _ & _ & [Hexit|Hok]).
  { destruct Hexit as (Hres' & _). congruence. }
  destruct Hok as (ref & key & entries & Hres' & Hhold & _ & Hdir).
  rewrite Hres in Hres'. simplify_eq.
  destruct Hhold as (Henv & url & key' & ref' & entries' & Hurl & ? & Hkey & ?
                     & Href & (w1 & w2 & Hc & Hx) & Hdir' & name & Hin & Hsql).
  rewrite Hdir in Hdir'. simplify_eq.
  assert (sorted_sql_files entries' ≠ []) as Hne.
  { intros Hnil. eapply sorted_sql_files_nil; done. }
  pose proof (preflight_returns s url key' Henv Hurl ltac:(done) Hkey ltac:(done)
                ref' Href w1 w2 Hc Hx entries' Hdir Hne) as Hpre.
  rewrite Hpre in Hres. cbn [res] in Hres. simplify_eq.
  by rewrite Hpre.
Qed.

Lemma verification_rest_no_connect :
  emits_only no_connect
    (with_cursor (for_each tables_to_check check_table);; close : M unit).
Proof. unfold check_table. rules. Qed.

Lemma verification_body_starts dsn (s : State) :
  ∃ rest,
    evs (verification_body dsn s) = Connect dsn :: rest
    ∧ Forall no_connect rest.
Proof.
  unfold verification_body, connect.
  destruct (pg_connect dsn (world s)) as [w1 [msg|]] eqn:Hc.
  - erewrite bind_run_inl by by apply db_call_raises. by exists [].
  - erewrite bind_run_inr by by apply db_call_returns.
    eexists. split; [done|]. apply verification_rest_no_connect.
Qed.

(** The verification opens one connection, whatever follows. *)
Lemma verify_tables_connections dsn (s : State) :
  connections (verify_tables dsn s) = [dsn].
Proof.
  destruct (verify_tables_run dsn s) as (caught & -> & Hc).
  apply verify_tables_caught in Hc as [msg Hc].
  destruct (verification_body_starts dsn (with_missing s []))
    as (rest & -> & Hrest).
  unfold connections. cbn [evs]. simpl. f_equal. apply omap_none.
  rewrite !Forall_app. split_and!.
  - eapply Forall_impl; [apply Hrest|]. by intros [].
  - destruct Hc as [-> | ->]; by repeat constructor.
  - by repeat constructor.
Qed.

(** X6: a run that passes the preflight opens one connection for the
    probe, one for each migration file that can be read, none for a file
    that cannot, and one for the verification: two more than the readable
    files, all with the same parameters. *)
Theorem connections_count (w : W) dsn files :
  res (preflight urlparse_hostname h (initial w)) = inr (dsn, files) →
  connections (run urlparse_hostname h w)
  = replicate (2 + length (filter (λ f, readable h f = true) files)) dsn.
Proof.
  intros Hres. unfold run. erewrite main_returns by done.
  unfold connections. cbn [evs]. rewrite !omap_app.
  pose proof (preflight_connections _ _ _ Hres) as Hpre.
  unfold connections in Hpre. rewrite Hpre.
  match goal with
  | |- context [omap _ (evs (for_each files _ ?s))] =>
      pose proof (loop_connections dsn files s) as Hloop
  end.
  unfold connections in Hloop. rewrite Hloop.
  match goal with
  | |- context [omap _ (evs (verify_tables dsn ?s))] =>
      pose proof (verify_tables_connections dsn s) as Hverify
  end.
  unfold connections in Hverify. rewrite Hverify.
  rewrite omap_none by (apply Forall_fmap, Forall_true; done).
  rewrite app_nil_r. simpl. by rewrite <-replicate_S_end.
Qed.

Lemma check_table_read_only table :
  table ∈ tables_to_check → emits_only read_only (check_table table).
Proof.
  intros Htable. unfold check_table. rules.
  split; [done|]. by exists table.
Qed.

Lemma for_each_emits_in {A} (Q : event → Prop) (l : list A) (body : A → M unit) :
  (∀ x, x ∈ l → emits_only Q (body x)) → emits_only Q (for_each l body).
Proof.
  induction l as [|x l IH]; intros Hbody; simpl.
  - apply (emits_only_ret (A:=unit)).
  - apply emits_only_bind; [apply Hbody; left|].
    intros _. apply IH. intros y Hy. apply Hbody. by right.
Qed.

Lemma verify_tables_read_only dsn : emits_only read_only (verify_tables dsn).
Proof.
  intros s. destruct (verify_tables_run dsn s) as (caught & -> & Hc).
  apply verify_tables_caught in Hc as [msg Hc]. simpl.
  constructor; [done|]. rewrite !Forall_app. split_and!.
  - cut (emits_only read_only (verification_body dsn)); [by intros Hm|].
    unfold verification_body, with_cursor, connect, cursor, close.
    apply emits_only_bind; [by apply emits_only_db_call|intros _].
    apply emits_only_bind; [|intros _; by apply emits_only_db_call].
    apply emits_only_bind; [by apply emits_only_db_call|intros _].
    apply emits_only_try_finally; [|by repeat constructor].
    apply for_each_emits_in. apply check_table_read_only.
  - destruct Hc as [-> | ->]; by repeat constructor.
  - by repeat constructor.
Qed.

(** X9: the verification changes nothing: whatever the database
    answers, it commits nothing, opens no file, and the only statement it
    sends is the catalog query, with one of the three table names as its
    single argument. *)
Theorem verification_is_read_only dsn (s : State) :
  Forall read_only (evs (verify_tables dsn s))
  ∧ commits (verify_tables dsn s) = 0%nat
  ∧ failed_migrations (st (verify_tables dsn s)) = failed_migrations s.
Proof.
  pose proof (verify_tables_read_only dsn s) as Hro.
  split_and!; [done| |apply verify_tables_keeps_failed].
  unfold commits. rewrite omap_none; [done|].
  eapply Forall_impl; [apply Hro|]. by intros [].
Qed.

Lemma elem_of_executed {A} (r : Out A) sql args :
  (sql, args) ∈ executed r ↔ Execute sql args ∈ evs r.
Proof.
  unfold executed. rewrite list_elem_of_omap. split.
  - intros ([] & Hin & Heq); simplify_eq. done.
  - intros Hin. by exists (Execute sql args).
Qed.

(** X7: every statement a run sends to the database is either the whole
    text of a file of the migration directory whose name ends in [.sql],
    sent without arguments, or the catalog query about one of the three
    tables. *)
Theorem executed_statements (w : W) sql args :
  (sql, args) ∈ executed (run urlparse_hostname h w) →
  (args = None
   ∧ ∃ entries f,
       migrations h = Some entries ∧ f ∈ entries
       ∧ has_suffix ".sql" f = true
       ∧ read_text h (migration_path f) = ReadOk sql)
  ∨ (sql = exists_query
     ∧ ∃ table, table ∈ tables_to_check ∧ args = Some [table]).
Proof.
  unfold run.
  destruct (res (preflight urlparse_hostname h (initial w)))
    as [e|[dsn files]] eqn:Hres.
  { erewrite main_exits by done.
    rewrite executed_nil by apply preflight_no_statement.
    by intros ?%elem_of_nil. }
  destruct (preflight_files _ _ _ Hres) as (entries & Hdir & ->).
  erewrite main_returns by done. unfold executed. cbn [evs].
  rewrite !omap_app, !elem_of_app. intros [Hin|[Hin|[Hin|Hin]]].
  - fold (executed (preflight urlparse_hostname h (initial w))) in Hin.
    rewrite executed_nil in Hin by apply preflight_no_statement.
    by apply elem_of_nil in Hin.
  - apply loop_executed in Hin as [-> (f & Hf & Hread)].
    apply sorted_sql_files_elem_of in Hf as [Hf Hsql].
    left. split; [done|]. by exists entries, f.
  - apply elem_of_executed in Hin.
    match type of Hin with
    | _ ∈ evs (verify_tables dsn ?s) =>
        pose proof (verify_tables_read_only dsn s) as Hro
    end.
    rewrite Forall_forall in Hro. right. apply (Hro _ Hin).
  - apply list_elem_of_omap in Hin as (e & He & Heq).
    apply list_elem_of_fmap in He as (line & -> & _). done.
Qed.

(** X8: a run that ends with exit status 1 has sent no statement to the
    database and opened no migration file: its events are prints and at
    most the opening and closing of the connection of the probe. *)
Theorem fatal_run_sends_no_statement (w : W) :
  exit_status (run urlparse_hostname h w) = 1 →
  Forall no_statement (evs (run urlparse_hostname h w))
  ∧ executed (run urlparse_hostname h w) = []
  ∧ opened (run urlparse_hostname h w) = []
  ∧ commits (run urlparse_hostname h w) = 0%nat.
Proof.
  intros Hexit.
  assert (Forall no_statement (evs (run urlparse_hostname h w))) as Hno.
  { unfold run in *.
    destruct (res (preflight urlparse_hostname h (initial w)))
      as [e|[dsn files]] eqn:Hres.
    - erewrite main_exits by done. apply preflight_no_statement.
    - unfold exit_status in Hexit. by erewrite main_returns in Hexit. }
  split_and!; [done|by apply executed_nil|..].
  - apply omap_none. eapply Forall_impl; [apply Hno|]. by intros [].
  - unfold commits. rewrite omap_none; [done|].
    eapply Forall_impl; [apply Hno|]. by intros [].
Qed.

(** ** More properties of the verification *)

(** One turn of the inner loop of the verification: it asks about its
    table, and appends it to [missing_tables] or leaves the list as it
    was. *)
Lemma check_table_cases table (s : State) :
  ∃ tr v w' missing,
    check_table table s
    = {| st := {| world := w'; failed_migrations := failed_migrations s;
                  missing_tables := missing_tables s ++ missing |};
         evs := Execute exists_query (Some [table]) :: tr;
         res := v |}
    ∧ (tr = [] ∨ tr = [FetchOne] ∨ ∃ line, tr = [FetchOne; Print line])
    ∧ (missing = [] ∨ (missing = [table] ∧ v = inr tt)).
Proof.
  destruct (pg_execute exists_query (Some [table]) (world s))
    as [w1 [msg|]] eqn:He.
  { eexists [], _, _, []. split_and!; [|by left|by left].
    unfold check_table, execute.
    erewrite bind_run_inl by by apply db_call_raises.
    by rewrite app_nil_r. }
  destruct (pg_fetchone w1) as [w2 [msg|[]]] eqn:Hf.
  - eexists [FetchOne], _, _, []. split_and!; [|right; by left|by left].
    unfold check_table, execute.
    erewrite bind_run_inr by by apply db_call_returns.
    erewrite bind_run_inl; [by rewrite app_nil_r|].
    unfold fetchone. cbn [world set_world]. by rewrite Hf.
  - eexists [FetchOne; _], _, _, []. split_and!; [|right; right; by eexists|by left].
    erewrite check_table_present by done. by rewrite app_nil_r.
  - eexists [FetchOne; _], _, _, [table].
    split_and!; [|right; right; by eexists|by right].
    by erewrite check_table_absent by done.
Qed.

Lemma queried_app (l1 l2 : list event) :
  queried (l1 ++ l2) = queried l1 ++ queried l2.
Proof. apply omap_app. Qed.

(** The inner loop asks about the tables in order, up to the first call
    that raises, and what it appends to [missing_tables] is a subsequence
    of the tables it asked about. *)
Lemma check_tables_progress tables (s : State) :
  let r := for_each tables check_table s in
  ∃ missing,
    asked r `prefix_of` tables
    ∧ missing_tables (st r) = missing_tables s ++ missing
    ∧ missing `sublist_of` asked r
    ∧ (res r = inr tt → asked r = tables).
Proof.
  revert s. induction tables as [|table tables IH]; intros s; cbv zeta.
  { exists []. simpl. split_and!; [done|by rewrite app_nil_r|done|done]. }
  destruct (check_table_cases table s)
    as (tr & v & w' & missing & Hturn & Htr & Hmissing).
  assert (queried tr = []) as Hasked.
  { destruct Htr as [->|[->|[line ->]]]; done. }
  change (for_each (table :: tables) check_table s)
    with ((check_table table ≫= λ _, for_each tables check_table) s).
  destruct v as [e|[]].
  - erewrite bind_run_inl by done. unfold asked. cbn [st evs res].
    change (queried (Execute exists_query (Some [table]) :: tr))
      with (table :: queried tr).
    rewrite Hasked.
    destruct Hmissing as [->|[_ [=]]].
    exists []. split_and!; [|done|apply sublist_nil_l|done].
    by exists tables.
  - erewrite bind_run_inr by done.
    match goal with |- context [for_each tables check_table ?s'] =>
      destruct (IH s') as (more & Hprefix & Hmore & Hsub & Hall) end.
    unfold asked in *. cbn [st evs res].
    change (queried ((Execute exists_query (Some [table]) :: tr) ++ ?l))
      with (table :: queried (tr ++ l)).
    rewrite queried_app, Hasked, Hmore. cbn [missing_tables app].
    exists (missing ++ more). split_and!.
    + by apply prefix_cons.
    + by rewrite (assoc_L (++)).
    + destruct Hmissing as [->|[-> _]]; simpl.
      * by apply sublist_cons.
      * by apply sublist_skip.
    + intros Hres. by rewrite Hall.
Qed.

Lemma verification_body_progress dsn (s : State) :
  let r := verification_body dsn s in
  ∃ missing,
    asked r `prefix_of` tables_to_check
    ∧ missing_tables (st r) = missing_tables s ++ missing
    ∧ missing `sublist_of` asked r.
Proof.
  cbv zeta. unfold verification_body, connect.
  destruct (pg_connect dsn (world s)) as [w1 [msg|]] eqn:Hc.
  { erewrite bind_run_inl by by apply db_call_raises.
    exists []. unfold asked. cbn [st evs set_world missing_tables queried omap list_omap].
    split_and!; [apply prefix_nil|by rewrite app_nil_r|done]. }
  erewrite bind_run_inr by by apply db_call_returns.
  unfold with_cursor, cursor. rewrite bind_assoc.
  destruct (pg_cursor w1) as [w2 [msg|]] eqn:Hcur.
  { erewrite bind_run_inl by by apply db_call_raises.
    exists []. unfold asked. cbn [st evs set_world missing_tables queried omap list_omap].
    split_and!; [apply prefix_nil|by rewrite app_nil_r|done]. }
  erewrite bind_run_inr by by apply db_call_returns.
  set (s2 := set_world (set_world s w1) w2).
  destruct (check_tables_progress tables_to_check s2)
    as (missing & Hprefix & Hmissing & Hsub & _).
  cbv zeta in *. unfold asked in *. exists missing.
  assert (∀ (r : Out unit) (tr tr' : list event),
            Forall (λ e, match e with Execute _ _ => False | _ => True end) tr →
            Forall (λ e, match e with Execute _ _ => False | _ => True end) tr' →
            queried (tr ++ evs r ++ tr') = queried (evs r)) as Hframe.
  { intros r tr tr' Htr Htr'. rewrite !queried_app.
    assert (∀ l, Forall (λ e, match e with Execute _ _ => False | _ => True end) l
                 → queried l = []) as Hnil.
    { intros l Hl. apply omap_none. eapply Forall_impl; [apply Hl|]. by intros []. }
    rewrite (Hnil tr), (Hnil tr') by done. by rewrite app_nil_r. }
  unfold try_finally, mbind, M_bind, bind. cbn [st evs res].
  destruct (res (for_each tables_to_check check_table s2)) as [e|[]] eqn:Hres;
    cbn [st evs res].
  - change ([Connect dsn] ++ [Cursor] ++ ?l) with ([Connect dsn; Cursor] ++ l).
    rewrite (Hframe (for_each tables_to_check check_table s2)
               [Connect dsn; Cursor] [CursorClose])
      by by repeat constructor.
    done.
  - unfold close, db_call.
    destruct (pg_close _) as [w3 reply]. cbn [st evs res].
    rewrite <-!(assoc_L (++)).
    change ([Connect dsn] ++ [Cursor] ++ ?l) with ([Connect dsn; Cursor] ++ l).
    change ([CursorClose] ++ [Close]) with [CursorClose; Close].
    rewrite (Hframe (for_each tables_to_check check_table s2)
               [Connect dsn; Cursor] [CursorClose; Close])
      by by repeat constructor.
    done.
Qed.

Lemma verify_tables_progress dsn (s : State) :
  let r := verify_tables dsn s in
  asked r `prefix_of` tables_to_check
  ∧ missing_tables (st r) `sublist_of` asked r.
Proof.
  cbv zeta. destruct (verify_tables_run dsn s) as (caught & -> & Hc).
  apply verify_tables_caught in Hc as [msg Hc].
  destruct (verification_body_progress dsn (with_missing s []))
    as (missing & Hprefix & Hmissing & Hsub).
  cbv zeta in *. cbn [st]. rewrite Hmissing. cbn [missing_tables app].
  assert (asked {| st := st (verification_body dsn (with_missing s []));
                   evs := Print verifying
                            :: evs (verification_body dsn (with_missing s []))
                            ++ caught ++ [Print ""];
                   res := inr tt |}
          = asked (verification_body dsn (with_missing s []))) as ->.
  { unfold asked. cbn [evs].
    change (queried (Print verifying :: ?l)) with (queried l).
    rewrite !queried_app.
    destruct Hc as [-> | ->]; cbn; by rewrite app_nil_r. }
  done.
Qed.


(** X10: at the end of every run, whatever failed, [missing_tables] is a
    subsequence of users, articles, workers: it holds each table at
    most once and in that order. *)
Theorem missing_tables_subsequence (w : W) :
  missing_tables (st (run urlparse_hostname h w)) `sublist_of` tables_to_check
  ∧ NoDup (missing_tables (st (run urlparse_hostname h w))).
Proof.
  assert (missing_tables (st (run urlparse_hostname h w))
            `sublist_of` tables_to_check) as Hsub.
  { unfold run.
    destruct (res (preflight urlparse_hostname h (initial w)))
      as [e|[dsn files]] eqn:Hres.
    - erewrite main_exits by done. cbn [st].
      destruct (preflight_outcome (initial w)) as (_ & _ & -> & _).
      apply sublist_nil_l.
    - erewrite main_returns by done. cbn [st].
      match goal with |- context [verify_tables dsn ?s] =>
        destruct (verify_tables_progress dsn s) as [Hprefix Hsub] end.
      etrans; [apply Hsub|]. destruct Hprefix as [rest ->].
      by apply sublist_inserts_r. }
  split; [done|]. eapply sublist_NoDup; [|done].
  by apply (bool_decide_unpack _).
Qed.

Lemma verify_tables_connect_fails dsn (s : State) w' msg :
  pg_connect dsn (world s) = (w', Some msg) →
  verify_tables dsn s
  = {| st := {| world := w'; failed_migrations := failed_migrations s;
                missing_tables := [] |};
       evs := [ Print verifying; Connect dsn;
                Print (error_line ("Error checking tables: " +:+ msg));
                Print "" ];
       res := inr tt |}.
Proof.
  intros Hc.
  assert (verification_body dsn (with_missing s [])
          = {| st := set_world (with_missing s []) w'; evs := [Connect dsn];
               res := inl (Psycopg2Error msg) |}) as Hbody.
  { unfold verification_body, connect.
    by erewrite bind_run_inl by by apply db_call_raises. }
  destruct (verify_tables_run dsn s) as (caught & -> & Hcaught).
  rewrite Hbody in Hcaught |- *. cbn [st evs res] in *.
  destruct Hcaught as (msg' & [= <-] & ->). done.
Qed.

(** X12: when the connection of the verification cannot be opened, no
    table is asked about and [missing_tables] stays empty: the
    verification prints its error, and the summary that follows prints
    the success banner exactly when no migration failed, whatever tables
    the database has. *)
Theorem verification_connection_fails (w : W) dsn files w' msg :
  res (preflight urlparse_hostname h (initial w)) = inr (dsn, files) →
  pg_connect dsn (world (st (before_verification urlparse_hostname h w)))
  = (w', Some msg) →
  let r := run urlparse_hostname h w in
  missing_tables (st r) = []
  ∧ world (st r) = w'
  ∧ (∃ before,
       evs r
       = before
         ++ [ Print verifying; Connect dsn;
              Print (error_line ("Error checking tables: " +:+ msg));
              Print "" ]
         ++ (Print <$> summary_lines [] (failed_migrations (st r))))
  ∧ (success_banner ∈ printed r ↔ failed_migrations (st r) = []).
Proof.
  intros Hpre Hc r.
  rewrite (before_verification_st w dsn files Hpre) in Hc.
  assert (r = _) as Hr by (subst r; unfold run; by erewrite main_returns).
  rewrite (verify_tables_connect_fails _ _ _ _ Hc) in Hr. cbn [st evs] in Hr.
  assert (res r = inr tt) as Hres by by rewrite Hr.
  destruct (run_success_banner w Hres) as [Hsuccess _]. fold r in Hsuccess.
  assert (missing_tables (st r) = []) as Hmissing by by rewrite Hr.
  split_and!.
  - done.
  - by rewrite Hr.
  - eexists. rewrite Hr at 1. cbn [evs].
    rewrite (assoc_L (++) (evs _) (evs _)). do 3 f_equal. by rewrite Hr.
  - rewrite Hsuccess, Hmissing. tauto.
Qed.

(** ** More properties of the preflight *)

(** X14: when the environment file exists and one of the two variables
    is unset or empty, the run prints the banner, the error and the three
    lines that name the variables, and ends through [sys.exit(1)] without
    any call to the database. *)
Theorem missing_variable_run (w : W) :
  env_local_exists h = true →
  variable_missing h URL_VAR ∨ variable_missing h KEY_VAR →
  run urlparse_hostname h w
  = {| st := initial w;
       evs := [ Print banner;
                Print (error_line "Missing required environment variables!");
                Print "Please ensure the following are set in .env.local:";
                Print "  - NEXT_PUBLIC_SUPABASE_URL";
                Print "  - SUPABASE_SERVICE_ROLE_KEY" ];
       res := inl (SystemExit 1) |}.
Proof.
  intros Henv Hmissing. unfold run.
  assert (truthy (environ h URL_VAR) = false ∨ truthy (environ h KEY_VAR) = false)
    as Htruthy.
  { destruct Hmissing as [Hm|Hm]; [left|right]; by apply truthy_false. }
  erewrite main_exits; by erewrite preflight_missing_variable.
Qed.

Section Probed.
Context (w : W) (url key ref : string).
Hypothesis Henv : env_local_exists h = true.
Hypothesis Hurl : environ h URL_VAR = Some url.
Hypothesis Hurl_ne : url ≠ "".
Hypothesis Hkey : environ h KEY_VAR = Some key.
Hypothesis Hkey_ne : key ≠ "".
Hypothesis Href : project_ref_of urlparse_hostname url = inr ref.

(** X15: when the connection of the probe cannot be opened, the run
    prints the error of the database and the two lines of advice and ends
    through [sys.exit(1)], having attempted that one connection and
    nothing else. *)
Theorem probe_failure_run w1 msg :
  pg_connect (connection_params ref key) w = (w1, Some msg) →
  run urlparse_hostname h w
  = {| st := set_world (initial w) w1;
       evs := [ Print banner;
                Print (info_line ("Project Reference: " +:+ ref));
                Print (info_line ("Supabase URL: " +:+ url +:+ nl));
                Print (info_line "Testing database connection...");
                Connect (connection_params ref key);
                Print (error_line ("Could not connect to database: " +:+ msg));
                Print (nl +:+ "Please check your credentials and try again.");
                Print "Note: Make sure you're using the SERVICE_ROLE_KEY, not the ANON_KEY" ];
       res := inl (SystemExit 1) |}.
Proof.
  intros Hc. unfold run.
  erewrite main_exits; by erewrite preflight_connect_fails.
Qed.

Context (w1 w2 : W).
Hypothesis Hconnect : pg_connect (connection_params ref key) w = (w1, None).
Hypothesis Hclose : pg_close w1 = (w2, None).

(** X16: when the probe succeeds and the migration directory does not
    exist, the run ends through [sys.exit(1)] after the error line that
    names the directory; the connection of the probe was opened and
    closed, and nothing was sent to the database. *)
Theorem missing_directory_run :
  migrations h = None →
  run urlparse_hostname h w
  = {| st := set_world (initial w) w2;
       evs := [ Print banner;
                Print (info_line ("Project Reference: " +:+ ref));
                Print (info_line ("Supabase URL: " +:+ url +:+ nl));
                Print (info_line "Testing database connection...");
                Connect (connection_params ref key); Close;
                Print (success_line ("Successfully connected to Supabase database" +:+ nl));
                Print (error_line "Migration directory not found: supabase/migrations") ];
       res := inl (SystemExit 1) |}.
Proof.
  intros Hdir. unfold run.
  erewrite main_exits; by erewrite preflight_no_dir.
Qed.

(** X17: when the probe succeeds and no entry of the migration directory
    ends in [.sql], whatever else the directory holds, the run ends
    through [sys.exit(1)] after its error line, and nothing was sent to
    the database. *)
Theorem no_sql_files_run entries :
  migrations h = Some entries →
  (∀ name, name ∈ entries → has_suffix ".sql" name = false) →
  run urlparse_hostname h w
  = {| st := set_world (initial w) w2;
       evs := [ Print banner;
                Print (info_line ("Project Reference: " +:+ ref));
                Print (info_line ("Supabase URL: " +:+ url +:+ nl));
                Print (info_line "Testing database connection...");
                Connect (connection_params ref key); Close;
                Print (success_line ("Successfully connected to Supabase database" +:+ nl));
                Print (error_line "No SQL migration files found!") ];
       res := inl (SystemExit 1) |}.
Proof.
  intros Hdir Hnone. unfold run.
  assert (sorted_sql_files entries = []) as Hnil.
  { apply sorted_sql_files_nil. intros name Hin Hsql.
    unfold sql_file in Hsql. by rewrite (Hnone name Hin) in Hsql. }
  erewrite main_exits; by erewrite preflight_no_files.
Qed.

End Probed.

End Properties.

(** * The claims on concrete runs

    The runs use the model of [urlparse] and the small database above. *)

Ltac decide_by_computation :=
  apply (bool_decide_unpack _); vm_compute; exact I.

(** C6 on a machine without the environment file. *)
Lemma fatal_precondition_exits_witness :
  exit_status (run Urllib.hostname Sample.unconfigured Sample.empty) = 1
  ∧ connections (run Urllib.hostname Sample.unconfigured Sample.empty) = [].
Proof.
  destruct (fatal_precondition_exits Urllib.hostname Sample.unconfigured
              Sample.empty) as (Hstatus & _ & _ & Henv).
  - apply missing_env_file. reflexivity.
  - split; [exact Hstatus|]. apply Henv. reflexivity.
Defined.

(** C10 on the URL [abcxyz.supabase.co], which has no scheme. *)
Lemma no_hostname_exits_witness :
  Urllib.hostname "abcxyz.supabase.co" = UrlHostname None
  ∧ res (run Urllib.hostname Sample.schemeless Sample.empty)
    = inl (SystemExit 1)
  ∧ connections (run Urllib.hostname Sample.schemeless Sample.empty) = [].
Proof.
  split; [reflexivity|].
  destruct (no_hostname_exits Urllib.hostname Sample.schemeless Sample.empty
              "abcxyz.supabase.co" Sample.key)
    as (_ & Hres & _ & _ & Hconn & _);
    [reflexivity|reflexivity|discriminate|reflexivity|discriminate|reflexivity|].
  split; [exact Hres|exact Hconn].
Defined.

(** C7 on the URL [https://abcxyz.supabase.co]: the identifier is
    [abcxyz]. *)
Lemma project_ref_is_first_label_witness :
  Urllib.hostname Sample.url = UrlHostname (Some "abcxyz.supabase.co")
  ∧ first_label "abcxyz.supabase.co" = "abcxyz"
  ∧ project_ref_of Urllib.hostname Sample.url = inr "abcxyz".
Proof.
  split; [reflexivity|]. split; [reflexivity|].
  destruct (project_ref_is_first_label Urllib.hostname Sample.machine
              Sample.empty Sample.url Sample.key "abcxyz.supabase.co")
    as (Href & _);
    [reflexivity|reflexivity|discriminate|reflexivity|discriminate|reflexivity|].
  exact Href.
Defined.

(** C8 on the connection of the probe. *)
Lemma connections_use_derived_parameters_witness :
  Sample.dsn ∈ connections (run Urllib.hostname Sample.machine Sample.empty)
  ∧ ∀ d, d ∈ connections (run Urllib.hostname Sample.machine Sample.empty) →
         d = Sample.dsn.
Proof.
  assert (Sample.dsn
            ∈ connections (run Urllib.hostname Sample.machine Sample.empty))
    as Hin by (vm_compute; left).
  split; [exact Hin|].
  destruct (connections_use_derived_parameters Urllib.hostname Sample.machine
              Sample.empty Sample.dsn Hin)
    as (url & key & ref & _ & _ & _ & _ & Hall).
  exact Hall.
Defined.

Lemma machine_preconditions :
  preconditions_hold Urllib.hostname Sample.machine Sample.empty.
Proof.
  split; [reflexivity|].
  exists Sample.url, Sample.key, "abcxyz",
    (list_to_set ["002_b.sql"; "notes.txt"; "001_a.sql"]).
  split_and!; try reflexivity; try discriminate.
  - eexists _, _. split; reflexivity.
  - exists "001_a.sql". split; [|reflexivity]. decide_by_computation.
Qed.

Lemma machine_preflight :
  res (preflight Urllib.hostname Sample.machine (initial Sample.empty))
  = inr (Sample.dsn, ["001_a.sql"; "002_b.sql"]).
Proof. vm_compute. reflexivity. Qed.

(** C5 on a directory that holds [002_b.sql], [notes.txt] and
    [001_a.sql]: the first is opened after the last, the second never. *)
Lemma migrations_in_sorted_order_witness :
  sorted_sql_files (list_to_set ["002_b.sql"; "notes.txt"; "001_a.sql"])
  = ["001_a.sql"; "002_b.sql"]
  ∧ opened (run Urllib.hostname Sample.machine Sample.empty)
    = (λ f, migration_dir +:+ "/" +:+ f)
        <$> sorted_sql_files (list_to_set ["002_b.sql"; "notes.txt"; "001_a.sql"]).
Proof.
  split; [vm_compute; reflexivity|].
  destruct (migrations_in_sorted_order Urllib.hostname Sample.machine
              Sample.empty (list_to_set ["002_b.sql"; "notes.txt"; "001_a.sql"])
              machine_preconditions eq_refl) as (_ & _ & _ & Hopened).
  exact Hopened.
Defined.

(** C9 after one turn of the loop and at the end of the run. *)
Lemma failed_migrations_subsequence_witness :
  failed_migrations (st (run Urllib.hostname Sample.machine Sample.empty))
    `sublist_of` ["001_a.sql"; "002_b.sql"]
  ∧ NoDup (failed_migrations
             (st (run Urllib.hostname Sample.machine Sample.empty))).
Proof.
  destruct (failed_migrations_subsequence Urllib.hostname Sample.machine
              Sample.empty Sample.dsn ["001_a.sql"; "002_b.sql"] 1
              machine_preflight) as (_ & _ & _ & _ & _ & _ & Hsub & Hnodup).
  split; [exact Hsub|exact Hnodup].
Defined.

(** C2 on [002_b.sql], which is not valid SQL, after [001_a.sql] was
    applied. *)
Lemma failed_migration_is_recorded_witness :
  "002_b.sql"
    ∈ failed_migrations (st (run Urllib.hostname Sample.machine Sample.empty))
  ∧ Forall no_rollback (evs (run Urllib.hostname Sample.machine Sample.empty))
  ∧ res (run Urllib.hostname Sample.machine Sample.empty) = inr tt.
Proof.
  destruct (failed_migration_is_recorded Urllib.hostname Sample.machine
              Sample.empty Sample.dsn ["001_a.sql"] "002_b.sql" []
              (Psycopg2Error "syntax error") machine_preflight)
    as (_ & _ & (more & Hfailed & _) & _ & Hrollback & Hres).
  - vm_compute. reflexivity.
  - split; [|split; [exact Hrollback|exact Hres]].
    rewrite Hfailed. apply elem_of_app. right. left.
Defined.

Lemma machine_returns :
  res (run Urllib.hostname Sample.machine Sample.empty) = inr tt.
Proof. vm_compute. reflexivity. Qed.

(** C4 on a run with a failed migration and two missing tables. *)
Lemma summary_banners_witness :
  (success_banner ∈ printed (run Urllib.hostname Sample.machine Sample.empty)
   ↔ missing_tables (st (run Urllib.hostname Sample.machine Sample.empty)) = []
     ∧ failed_migrations (st (run Urllib.hostname Sample.machine Sample.empty)) = [])
  ∧ (error_banner ∈ printed (run Urllib.hostname Sample.machine Sample.empty)
     ↔ ¬ (missing_tables (st (run Urllib.hostname Sample.machine Sample.empty)) = []
          ∧ failed_migrations (st (run Urllib.hostname Sample.machine Sample.empty)) = [])).
Proof.
  destruct (summary_banners Urllib.hostname Sample.machine Sample.empty
              machine_returns) as (_ & Hsuccess & Herror & _).
  split; [exact Hsuccess|exact Herror].
Defined.

Lemma machine_answers :
  verification_answers Sample.dsn
    (world (st (before_verification Urllib.hostname Sample.machine Sample.empty)))
  = Some [true; false; false].
Proof. vm_compute. reflexivity. Qed.

(** C1 as amended, on a run where [users] exists and the two other
    tables do not. *)
Lemma verification_summary_witness :
  missing_tables (st (run Urllib.hostname Sample.machine Sample.empty))
  = absent tables_to_check [true; false; false]
  ∧ absent tables_to_check [true; false; false] = ["articles"; "workers"].
Proof.
  destruct (verification_summary Urllib.hostname Sample.machine Sample.empty
              Sample.dsn ["001_a.sql"; "002_b.sql"] [true; false; false]
              machine_preflight machine_answers) as (Hmissing & _).
  split; [exact Hmissing|reflexivity].
Defined.

(** C1 as stated fails: the three tables exist, the only migration fails
    because its table exists already, and the summary is the error
    banner, not the success banner. *)
Lemma all_tables_exist_without_success :
  let r := run Urllib.hostname Sample.single Sample.populated in
  Forall (λ table, table ∈ MemDb.tables (world (st r))) tables_to_check
  ∧ verification_answers Sample.dsn
      (world (st (before_verification Urllib.hostname Sample.single
                    Sample.populated)))
    = Some [true; true; true]
  ∧ missing_tables (st r) = []
  ∧ failed_migrations (st r) = ["001_users.sql"]
  ∧ (success_banner ∉ printed r)
  ∧ error_banner ∈ printed r.
Proof.
  split_and!.
  - decide_by_computation.
  - vm_compute. reflexivity.
  - vm_compute. reflexivity.
  - vm_compute. reflexivity.
  - decide_by_computation.
  - decide_by_computation.
Qed.

(** The case C1 as amended leaves out: the connection of the
    verification fails, no table was asked about, [missing_tables] stays
    empty, and the summary is the success banner although two of the
    three tables do not exist. *)
Example verification_error_then_success :
  let r := run Urllib.hostname Sample.single Sample.flaky in
  MemDb.tables (world (st r)) = ["users"]
  ∧ verification_answers Sample.dsn
      (world (st (before_verification Urllib.hostname Sample.single
                    Sample.flaky)))
    = None
  ∧ missing_tables (st r) = []
  ∧ failed_migrations (st r) = []
  ∧ success_banner ∈ printed r.
Proof.
  split_and!; try (vm_compute; reflexivity). decide_by_computation.
Qed.

(** The exit status is 0 with a failed migration and missing tables. *)
Example exit_status_with_failures :
  let r := run Urllib.hostname Sample.machine Sample.empty in
  exit_status r = 0
  ∧ failed_migrations (st r) = ["002_b.sql"]
  ∧ missing_tables (st r) = ["articles"; "workers"].
Proof. split_and!; vm_compute; reflexivity. Qed.

(** * The further properties on concrete runs *)

(** X1 on [001_a.sql], applied to the empty database. *)
Lemma applied_migration_trace_witness :
  ∃ text,
    read_text Sample.machine (migration_path "001_a.sql") = ReadOk text
    ∧ evs (migration_body Sample.machine Sample.dsn "001_a.sql"
             (initial Sample.empty))
      = [ OpenFile (migration_path "001_a.sql");
          Connect Sample.dsn; Cursor; Execute text None; Commit; CursorClose;
          Close;
          Print (success_line ("001_a.sql" +:+ " completed successfully" +:+ nl)) ]
    ∧ failed_migrations
        (st (run_migration Sample.machine Sample.dsn "001_a.sql"
               (initial Sample.empty)))
      = failed_migrations (initial Sample.empty).
Proof.
  apply (applied_migration_trace Sample.machine Sample.dsn "001_a.sql"
           (initial Sample.empty)).
  vm_compute. reflexivity.
Defined.

(** X2 on a database that drops the closing of the connection. *)
Lemma failing_turn_closes_only_after_commit_witness :
  ∃ text,
    read_text Sample.machine (migration_path "001_a.sql") = ReadOk text
    ∧ evs (migration_body Sample.machine Sample.dsn "001_a.sql"
             (initial Sample.drops_close))
      = [ OpenFile (migration_path "001_a.sql");
          Connect Sample.dsn; Cursor; Execute text None; Commit; CursorClose;
          Close ].
Proof.
  apply (failing_turn_closes_only_after_commit Sample.machine Sample.dsn
           "001_a.sql" (initial Sample.drops_close)
           (Psycopg2Error "connection lost")).
  - vm_compute. reflexivity.
  - vm_compute. repeat constructor.
Defined.

(** X3 on a file that cannot be read. *)
Lemma unreadable_migration_witness :
  evs (run_migration Sample.locked Sample.dsn "001_a.sql" (initial Sample.empty))
  = [ Print (info_line ("Running migration: " +:+ "001_a.sql"));
      OpenFile (migration_path "001_a.sql");
      Print (error_line ("001_a.sql" +:+ " failed with unexpected error: "
                           +:+ "Permission denied" +:+ nl)) ].
Proof.
  rewrite (unreadable_migration Sample.locked Sample.dsn "001_a.sql"
             (initial Sample.empty) "PermissionError" "Permission denied"
             eq_refl).
  reflexivity.
Defined.

(** X4 on [002_b.sql], which is not valid SQL. *)
Lemma rejected_batch_witness :
  failed_migrations
    (st (run_migration Sample.machine Sample.dsn "002_b.sql"
           (initial Sample.empty)))
  = ["002_b.sql"].
Proof.
  erewrite (rejected_batch Sample.machine Sample.dsn "002_b.sql"
              (initial Sample.empty));
    [reflexivity|reflexivity..].
Defined.

(** X5 on a database that commits and then drops the closing. *)
Lemma committed_yet_recorded_failed_witness :
  failed_migrations
    (st (run_migration Sample.machine Sample.dsn "001_a.sql"
           (initial Sample.drops_close)))
  = ["001_a.sql"]
  ∧ MemDb.tables
      (world (st (run_migration Sample.machine Sample.dsn "001_a.sql"
                    (initial Sample.drops_close))))
    = ["users"].
Proof.
  erewrite (committed_yet_recorded_failed Sample.machine Sample.dsn "001_a.sql"
              (initial Sample.drops_close));
    [|reflexivity..].
  split; reflexivity.
Defined.

(** X6 on the run of the two migrations: four connections. *)
Lemma connections_count_witness :
  connections (run Urllib.hostname Sample.machine Sample.empty)
  = replicate 4 Sample.dsn.
Proof.
  rewrite (connections_count Urllib.hostname Sample.machine Sample.empty
             Sample.dsn ["001_a.sql"; "002_b.sql"] machine_preflight).
  reflexivity.
Defined.

(** X7 on the first migration of the run. *)
Lemma executed_statements_witness :
  ("CREATE TABLE users", None)
    ∈ executed (run Urllib.hostname Sample.machine Sample.empty)
  ∧ ∃ entries f,
      migrations Sample.machine = Some entries ∧ f ∈ entries
      ∧ has_suffix ".sql" f = true
      ∧ read_text Sample.machine (migration_path f) = ReadOk "CREATE TABLE users".
Proof.
  assert (("CREATE TABLE users", None)
            ∈ executed (run Urllib.hostname Sample.machine Sample.empty))
    as Hin by (vm_compute; repeat constructor).
  split; [exact Hin|].
  destruct (executed_statements Urllib.hostname Sample.machine Sample.empty
              "CREATE TABLE users" None Hin)
    as [[_ Hfile]|[Hquery _]].
  - exact Hfile.
  - vm_compute in Hquery. discriminate Hquery.
Defined.

(** X8 on the machine without the environment file. *)
Lemma fatal_run_sends_no_statement_witness :
  executed (run Urllib.hostname Sample.unconfigured Sample.empty) = []
  ∧ opened (run Urllib.hostname Sample.unconfigured Sample.empty) = [].
Proof.
  destruct (fatal_run_sends_no_statement Urllib.hostname Sample.unconfigured
              Sample.empty) as (_ & Hexecuted & Hopened & _).
  - vm_compute. reflexivity.
  - split; [exact Hexecuted|exact Hopened].
Defined.

Lemma single_preflight :
  res (preflight Urllib.hostname Sample.single (initial Sample.flaky))
  = inr (Sample.dsn, ["001_users.sql"]).
Proof. vm_compute. reflexivity. Qed.

(** X12 on the database that drops the connection of the verification:
    the table [users] was created, the two others do not exist, and the
    success banner is printed. *)
Lemma verification_connection_fails_witness :
  missing_tables (st (run Urllib.hostname Sample.single Sample.flaky)) = []
  ∧ (success_banner ∈ printed (run Urllib.hostname Sample.single Sample.flaky)
     ↔ failed_migrations (st (run Urllib.hostname Sample.single Sample.flaky))
       = []).
Proof.
  edestruct (verification_connection_fails Urllib.hostname Sample.single
               Sample.flaky Sample.dsn ["001_users.sql"])
    as (Hmissing & _ & _ & Hsuccess).
  - exact single_preflight.
  - vm_compute. reflexivity.
  - split; [exact Hmissing|exact Hsuccess].
Defined.

(** X14 on the machine whose environment file sets nothing. *)
Lemma missing_variable_run_witness :
  exit_status (run Urllib.hostname Sample.blank Sample.empty) = 1
  ∧ world (st (run Urllib.hostname Sample.blank Sample.empty)) = Sample.empty.
Proof.
  rewrite (missing_variable_run Urllib.hostname Sample.blank Sample.empty
             eq_refl (or_introl (or_introl eq_refl))).
  split; reflexivity.
Defined.

(** X15 on the database that refuses the first connection. *)
Lemma probe_failure_run_witness :
  exit_status (run Urllib.hostname Sample.machine Sample.unreachable) = 1
  ∧ connections (run Urllib.hostname Sample.machine Sample.unreachable)
    = [Sample.dsn].
Proof.
  erewrite (probe_failure_run Urllib.hostname Sample.machine Sample.unreachable
              Sample.url Sample.key "abcxyz");
    [|first [reflexivity|discriminate]..].
  split; reflexivity.
Defined.

(** X16 on the machine without the migration directory. *)
Lemma missing_directory_run_witness :
  exit_status (run Urllib.hostname Sample.bare Sample.empty) = 1
  ∧ executed (run Urllib.hostname Sample.bare Sample.empty) = [].
Proof.
  erewrite (missing_directory_run Urllib.hostname Sample.bare Sample.empty
              Sample.url Sample.key "abcxyz");
    [|first [reflexivity|discriminate]..].
  split; reflexivity.
Defined.

(** X17 on the machine whose directory holds [notes.txt] alone. *)
Lemma no_sql_files_run_witness :
  exit_status (run Urllib.hostname Sample.notes_only Sample.empty) = 1
  ∧ opened (run Urllib.hostname Sample.notes_only Sample.empty) = [].
Proof.
  erewrite (no_sql_files_run Urllib.hostname Sample.notes_only Sample.empty
              Sample.url Sample.key "abcxyz");
    [|first [reflexivity|discriminate]..| ].
  - split; reflexivity.
  - intros name ->%elem_of_list_to_set%list_elem_of_singleton. reflexivity.
Defined.
